(** * sparkdl.graph.graph_builder: IsolatedSession and GraphFunction

    A shallow embedding of [python/sparkdl/graph/graph_builder.py] and the
    properties of its merge ([from_list]), import, persistence and Keras
    adaptation code.

    TensorFlow, Keras, joblib, the [graph_utils] helpers and the file system
    are collaborators of the module: they are an interface ([Engine]) whose
    operations act on an explicit [World].  The module's own statements
    (assertions, raises, loops, name handling, the order of the calls) are
    embedded as Rocq functions in a state-and-exception monad over that
    world. *)

From Stdlib Require Import Strings.Ascii Strings.String Strings.Byte.
From Stdlib Require Import DecimalString DecimalFacts DecimalNat.
From stdpp Require Import base option list gmap strings.

Set Default Proof Using "Type".
Local Open Scope string_scope.

(** ** Python strings *)

Module PyStr.

(** A character of a string is a Unicode code point below 256: a Rocq
    string stands for the Python [str] that has these code points. *)
Definition code_point (c : ascii) : N := N_of_ascii c.

(** The code points [str.isspace] holds of, which are the ones
    [str.strip()] removes: TAB, LF, VT, FF, CR, the separators FS, GS, RS
    and US, the space, NEL (U+0085), the no-break space (U+00A0), the ogham
    space mark (U+1680), the spaces U+2000 to U+200A, the line and the
    paragraph separator (U+2028, U+2029), the narrow no-break space
    (U+202F), the medium mathematical space (U+205F) and the ideographic
    space (U+3000). *)
Definition isspace_code_point (cp : N) : bool :=
  (N.leb 9 cp && N.leb cp 13) || (N.leb 28 cp && N.leb cp 32) ||
  N.eqb cp 133 || N.eqb cp 160 || N.eqb cp 5760 ||
  (N.leb 8192 cp && N.leb cp 8202) || N.eqb cp 8232 || N.eqb cp 8233 ||
  N.eqb cp 8239 || N.eqb cp 8287 || N.eqb cp 12288.

(** [c.isspace()] *)
Definition isspace (c : ascii) : bool := isspace_code_point (code_point c).

Fixpoint drop_while {A} (p : A → bool) (l : list A) : list A :=
  match l with
  | [] => []
  | x :: l' => if p x then drop_while p l' else l
  end.

Definition lstrip_list (l : list ascii) : list ascii := drop_while isspace l.
Definition rstrip_list (l : list ascii) : list ascii :=
  rev (drop_while isspace (rev l)).

(** [s.strip()]: leading and trailing whitespace removed. *)
Definition strip (s : string) : string :=
  string_of_list_ascii (rstrip_list (lstrip_list (list_ascii_of_string s))).

(** [s] is empty or made of whitespace only. *)
Definition only_whitespace (s : string) : bool :=
  forallb isspace (list_ascii_of_string s).

(** [s.endswith(suffix)]: some tail of [s] is [suffix]. *)
Fixpoint endswith (s suffix : string) : bool :=
  if String.eqb s suffix then true
  else match s with
       | EmptyString => false
       | String _ s' => endswith s' suffix
       end.

(** ['{}'.format(x)] for a value that is [None] or a [str]. *)
Definition format_opt (x : option string) : string :=
  match x with
  | None => "None"
  | Some s => s
  end.

(** ['{}'.format(n)] for a non-negative [int]. *)
Definition format_nat (n : nat) : string :=
  NilZero.string_of_uint (Nat.to_uint n).

End PyStr.

(** ** pathlib, as far as [from_keras] uses it

    Paths are the strings [str(Path(...))] gives for normalised paths
    without a trailing separator, which is what [mkdtemp] returns. *)

Module PyPath.

(** [str(Path(d) / name)] *)
Definition join (d name : string) : string := d ++ "/" ++ name.

(** The part of [s] before its last separator, if it has one. *)
Fixpoint before_last_sep (s : string) : option string :=
  match s with
  | EmptyString => None
  | String c s' =>
      match before_last_sep s' with
      | Some p => Some (String c p)
      | None => if Ascii.eqb c "/" then Some EmptyString else None
      end
  end.

(** [str(Path(s).parent)] *)
Definition parent (s : string) : string :=
  match before_last_sep s with
  | None => "."
  | Some EmptyString => "/"
  | Some p => p
  end.

End PyPath.

(** ** Exceptions and the monad of the module *)

(** An exception raised inside a collaborator: its class and message. *)
Record ext_exn := ExtExn { exn_class : string; exn_msg : string }.

(** The exceptions of the module.  Those raised by the module's own
    [assert] and [raise] statements are kept apart from those that come out
    of a collaborator call. *)
Inductive exn :=
| AssertionError (msg : string)
| NotImplementedError (msg : string)
| IndexError (msg : string)
| KeyError (key : string)
| External (e : ext_exn).

Inductive result (A : Type) :=
| Ok (a : A)
| Raise (e : exn).
Arguments Ok {A} a.
Arguments Raise {A} e.

Section Monad.
Context {W : Type}.

(** A computation reads and updates the world and returns or raises. *)
Definition M (A : Type) : Type := W → result A * W.

Definition ret {A} (a : A) : M A := λ w, (Ok a, w).
Definition raise {A} (e : exn) : M A := λ w, (Raise e, w).
Definition bind {A B} (c : M A) (k : A → M B) : M B :=
  λ w, match c w with
       | (Ok a, w') => k a w'
       | (Raise e, w') => (Raise e, w')
       end.

(** A call into a collaborator. *)
Definition call {A} (op : W → (ext_exn + A) * W) : M A :=
  λ w, match op w with
       | (inr a, w') => (Ok a, w')
       | (inl e, w') => (Raise (External e), w')
       end.

(** A collaborator function without effect that may raise. *)
Definition pure_call {A} (r : ext_exn + A) : M A :=
  match r with
  | inr a => ret a
  | inl e => raise (External e)
  end.

(** A collaborator call that cannot raise. *)
Definition effect (f : W → W) : M unit := λ w, (Ok tt, f w).

(** [assert cond, msg] *)
Definition assert (cond : bool) (msg : string) : M unit :=
  if cond then ret tt else raise (AssertionError msg).

(** [try: body finally: cleanup], the shape of a [with] block whose
    [__exit__] returns nothing: the cleanup runs on both exits and the
    body's outcome stands unless the cleanup itself raises. *)
Definition finally {A} (body : M A) (cleanup : M unit) : M A :=
  λ w, match body w with
       | (r, w') =>
           match cleanup w' with
           | (Ok _, w'') => (r, w'')
           | (Raise e, w'') => (Raise e, w'')
           end
       end.

(** A list comprehension, or a [for] loop that appends one value per
    element: the elements are visited from left to right. *)
Fixpoint mapM {A B} (f : A → M B) (l : list A) : M (list B) :=
  match l with
  | [] => ret []
  | x :: l' => bind (f x) (λ y, bind (mapM f l') (λ ys, ret (y :: ys)))
  end.

End Monad.
Arguments M : clear implicits.

(** The exceptions a computation can raise are among those that satisfy
    [P]. *)
Definition raises_only {W} (P : exn → Prop) {A} (c : M W A) : Prop :=
  ∀ w e w', c w = (Raise e, w') → P e.

Declare Scope py_scope.
Delimit Scope py_scope with py.
Notation "'let*' x ':=' c 'in' k" := (bind c (λ x, k))
  (at level 10, x pattern, c at level 100, k at level 200) : py_scope.
Notation "c1 ';;;' c2" := (bind c1 (λ _, c2))
  (at level 100, c2 at level 200, right associativity) : py_scope.
Local Open Scope py_scope.

(** ** The collaborators

    What the module consumes from TensorFlow ([tf], [tf.Session],
    [tf.GraphDef]), Keras ([K], [load_model], [Model.save]), joblib ([jl]),
    [sparkdl.utils.graph_utils] ([tfx]), [tempfile], [shutil] and [logging].
    An operation with an effect, or whose answer depends on the state of a
    graph, takes the world and returns either the exception it raised or
    its value, with the world after the call. *)

(** The dictionary [dump] stores and [from_file] reads, restricted to the
    three keys of the format; [None] is an absent key. *)
Record container := Container {
  st_graph_def_bytes : option (list byte);
  st_inputs : option (list string);
  st_outputs : option (list string)
}.

Class Engine := {
  World : Type;
  GraphDef : Type;
  Graph : Type;
  Session : Type;
  Tensor : Type;
  DType : Type;
  Shape : Type;
  KerasModel : Type;
  Kwarg : Type;
  (* tensorflow *)
  tf_Graph : World → (ext_exn + Graph) * World;
  tf_Session : Graph → World → (ext_exn + Session) * World;
  sess_as_default : Session → World → (ext_exn + unit) * World;
  sess_enter : Session → World → (ext_exn + unit) * World;
  sess_exit : Session → World → (ext_exn + unit) * World;
  graph_as_graph_def : Graph → World → (ext_exn + GraphDef) * World;
  tf_import_graph_def :
    GraphDef → option (gmap string Tensor) → list string → option string →
    gmap string Kwarg → World → (ext_exn + unit) * World;
  tf_placeholder : DType → Shape → string → World → (ext_exn + Tensor) * World;
  tf_identity : Tensor → string → World → (ext_exn + Tensor) * World;
  tensor_dtype : Tensor → DType;
  tensor_shape : Tensor → Shape;
  SerializeToString : GraphDef → list byte;
  FromString : list byte → ext_exn + GraphDef;
  (* sparkdl.utils.graph_utils *)
  strip_and_freeze_until :
    list Tensor → Graph → Session → World → (ext_exn + GraphDef) * World;
  validated_input : Graph → Tensor → World → (ext_exn + string) * World;
  validated_output : Graph → Tensor → World → (ext_exn + string) * World;
  get_tensor : Graph → string → World → (ext_exn + Tensor) * World;
  op_name : Graph → Tensor → World → (ext_exn + string) * World;
  (* keras *)
  K_get_session : World → (ext_exn + Session) * World;
  K_set_session : Session → World → (ext_exn + unit) * World;
  K_set_learning_phase : nat → World → (ext_exn + unit) * World;
  load_model : string → World → (ext_exn + KerasModel) * World;
  model_save : KerasModel → string → World → (ext_exn + unit) * World;
  model_inputs : KerasModel → list Tensor;
  model_outputs : KerasModel → list Tensor;
  (* joblib, tempfile, shutil, logging *)
  jl_dump : container → string → World → (ext_exn + unit) * World;
  jl_load : string → World → (ext_exn + container) * World;
  mkdtemp : string → World → (ext_exn + string) * World;
  rmtree_ignore_errors : string → World → World;
  logger_info : string → World → World
}.

(** ** The module *)

Section GraphBuilder.
Context {E : Engine}.

Abbreviation Py := (M World).

(** [class GraphFunction]: a [GraphDef] with the names of its input and
    output operations. *)
Record GraphFunction := mkGraphFunction {
  graph_def : GraphDef;
  input_names : list string;
  output_names : list string
}.

(** The attributes [IsolatedSession.__init__] sets. *)
Record IsolatedSession := mkIsolatedSession {
  graph : Graph;
  sess : Session;
  keras_prev_sess : option Session
}.

(** [IsolatedSession.__init__(self, graph=None, keras=False)] *)
Definition IsolatedSession_init (graph : option Graph) (keras : bool)
  : Py IsolatedSession :=
  let* g := match graph with
            | Some g => ret g
            | None => call tf_Graph
            end in
  let* s := call (tf_Session g) in
  let* prev := if keras then let* k := call K_get_session in ret (Some k)
               else ret None in
  ret (mkIsolatedSession g s prev).

(** [IsolatedSession.__enter__] *)
Definition IsolatedSession_enter (self : IsolatedSession) : Py IsolatedSession :=
  call (sess_as_default (sess self)) ;;;
  call (sess_enter (sess self)) ;;;
  match keras_prev_sess self with
  | Some _ => call (K_set_session (sess self))
  | None => ret tt
  end ;;;
  ret self.

(** [IsolatedSession.__exit__] *)
Definition IsolatedSession_exit (self : IsolatedSession) : Py unit :=
  match keras_prev_sess self with
  | Some prev => call (K_set_session prev)
  | None => ret tt
  end ;;;
  call (sess_exit (sess self)).

(** [with IsolatedSession(graph, keras) as issn: body] *)
Definition with_IsolatedSession {A} (graph : option Graph) (keras : bool)
    (body : IsolatedSession → Py A) : Py A :=
  let* mgr := IsolatedSession_init graph keras in
  let* issn := IsolatedSession_enter mgr in
  finally (body issn) (IsolatedSession_exit mgr).

(** [IsolatedSession.asGraphFunction(self, inputs, outputs,
    strip_and_freeze=True)] *)
Definition asGraphFunction (self : IsolatedSession)
    (inputs outputs : list Tensor) (strip_and_freeze : bool)
  : Py GraphFunction :=
  let* gdef :=
    if strip_and_freeze
    then call (strip_and_freeze_until outputs (graph self) (sess self))
    else call (graph_as_graph_def (graph self)) in
  let* ins := mapM (λ elem, call (validated_input (graph self) elem)) inputs in
  let* outs := mapM (λ elem, call (validated_output (graph self) elem)) outputs in
  ret (mkGraphFunction gdef ins outs).

(** Lines 99 to 101 of [import_graph_function]: the keys of a supplied
    [input_map] are among the declared input names. *)
Definition check_input_map (gfn : GraphFunction)
    (input_map : option (gmap string Tensor)) : Py unit :=
  match input_map with
  | Some m =>
      assert (bool_decide (dom m ⊆ list_to_set (C := gset string) (input_names gfn)))
             "cannot locate provided input elements in the graph"
  | None => ret tt
  end.

(** Lines 103 to 111: the [name] handed on to TensorFlow and the names
    under which the inputs and the outputs are looked up afterwards. *)
Definition scoped_names (gfn : GraphFunction) (name : option string)
  : option string * list string * list string :=
  match name with
  | Some name =>
      let name := PyStr.strip name in
      if Nat.ltb 0 (String.length name)
      then (Some name,
            map (λ op_name, name ++ "/" ++ op_name) (input_names gfn),
            map (λ op_name, name ++ "/" ++ op_name) (output_names gfn))
      else (Some name, input_names gfn, output_names gfn)
  | None => (None, input_names gfn, output_names gfn)
  end.

(** Lines 113 to 121: the import itself and the resolution of the
    handles. *)
Definition import_and_resolve (self : IsolatedSession) (gfn : GraphFunction)
    (input_map : option (gmap string Tensor)) (name : option string)
    (in_names out_names : list string) (gdef_kargs : gmap string Kwarg)
  : Py (list Tensor * list Tensor) :=
  call (tf_import_graph_def (graph_def gfn) input_map (output_names gfn)
                            name gdef_kargs) ;;;
  let* feeds := mapM (λ name, call (get_tensor (graph self) name)) in_names in
  let* fetches := mapM (λ name, call (get_tensor (graph self) name)) out_names in
  ret (feeds, fetches).

(** [IsolatedSession.import_graph_function(self, gfn, input_map=None,
    name="GFN-IMPORT", **gdef_kargs)] *)
Definition import_graph_function (self : IsolatedSession) (gfn : GraphFunction)
    (input_map : option (gmap string Tensor)) (name : option string)
    (gdef_kargs : gmap string Kwarg) : Py (list Tensor * list Tensor) :=
  let gdef_kargs := delete "return_elements" gdef_kargs in
  check_input_map gfn input_map ;;;
  let '(name, in_names, out_names) := scoped_names gfn name in
  import_and_resolve self gfn input_map name in_names out_names gdef_kargs.

(** *** Persistence *)

(** Lines 153 and 154 of [dump]: the path the file is written to. *)
Definition dump_path (fpath : string) : string :=
  if negb (PyStr.endswith fpath "jl") then fpath ++ ".jl" else fpath.

(** [GraphFunction.dump(self, fpath)]; [fpath] is a [str], as line 152
    asserts. *)
Definition dump (self : GraphFunction) (fpath : string) : Py unit :=
  let _st := {| st_graph_def_bytes := Some (SerializeToString (graph_def self));
                st_inputs := Some (input_names self);
                st_outputs := Some (output_names self) |} in
  call (jl_dump _st (dump_path fpath)).

(** [_st.keys()] *)
Definition key_of {A} (field : option A) (key : string) : gset string :=
  match field with
  | Some _ => {[key]}
  | None => ∅
  end.

Definition keys (_st : container) : gset string :=
  key_of (st_graph_def_bytes _st) "graph_def_bytes" ∪
  key_of (st_inputs _st) "inputs" ∪
  key_of (st_outputs _st) "outputs".

(** [_st[key]] *)
Definition getitem {A} (field : option A) (key : string) : Py A :=
  match field with
  | Some v => ret v
  | None => raise (KeyError key)
  end.

(** [GraphFunction.from_file(cls, fpath)] *)
Definition from_file (fpath : string) : Py GraphFunction :=
  let* _st := call (jl_load fpath) in
  assert (bool_decide ({["inputs"; "graph_def_bytes"; "outputs"]} ⊆ keys _st)) "" ;;;
  let* bytes := getitem (st_graph_def_bytes _st) "graph_def_bytes" in
  let* gdef := pure_call (FromString bytes) in
  let* ins := getitem (st_inputs _st) "inputs" in
  let* outs := getitem (st_outputs _st) "outputs" in
  ret (mkGraphFunction gdef ins outs).

(** *** Keras models *)

(** The argument of [from_keras]: a Keras model, a path string, or any
    other object, of which the code takes [str(...)]. *)
Inductive model_or_file_path :=
| InMemoryModel (model : KerasModel)
| PathString (path : string)
| PathObject (str_of : string).

(** Lines 191 to 194 of [from_keras]: the model is loaded and captured
    in a session linked to Keras. *)
Definition load_and_capture (model_path : string) : Py GraphFunction :=
  with_IsolatedSession None true (λ issn,
    call (K_set_learning_phase 0) ;;;
    let* model := call (load_model model_path) in
    asGraphFunction issn (model_inputs model) (model_outputs model) true).

(** [GraphFunction.from_keras(cls, model_or_file_path)] *)
Definition from_keras (arg : model_or_file_path) : Py GraphFunction :=
  let* (model_path, is_temp_model) :=
    match arg with
    | InMemoryModel model =>
        let* tmp := call (mkdtemp "kera-") in
        let model_path := PyPath.join tmp "model.h5" in
        call (model_save model model_path) ;;;
        ret (model_path, true)
    | PathString path => ret (path, false)
    | PathObject str_of => ret (str_of, false)
    end in
  let* gfn := load_and_capture model_path in
  (if is_temp_model
   then effect (rmtree_ignore_errors (PyPath.parent model_path))
   else ret tt) ;;;
  ret gfn.

(** *** Merging *)

(** An element of the argument of [from_list]: [(scope name, GraphFunction)],
    where the scope name is [None] or a string. *)
Definition unit_ : Type := option string * GraphFunction.

(** What [from_list] returns: an element of its argument (line 211) or
    the merged [GraphFunction] (line 252). *)
Inductive from_list_value :=
| TupleValue (scope : option string) (gfn : GraphFunction)
| GraphFunctionValue (gfn : GraphFunction).

(** [functions[i]] *)
Definition item (functions : list unit_) (i : nat) : Py unit_ :=
  match functions !! i with
  | Some f => ret f
  | None => raise (IndexError "list index out of range")
  end.

(** [functions[-1]] *)
Definition last_item (functions : list unit_) : Py unit_ :=
  match last functions with
  | Some f => ret f
  | None => raise (IndexError "list index out of range")
  end.

(** [dict(zip(keys, values))]: a later pair overrides an earlier one with
    the same key. *)
Definition dict_zip {V} (ks : list string) (vs : list V) : gmap string V :=
  foldl (λ m kv, <[kv.1 := kv.2]> m) ∅ (zip ks vs).

(** The body of the loop of lines 212 to 216 for one adjacent pair. *)
Definition check_link (f_in f_out : unit_) : Py unit :=
  let '(scope_in, gfn_in) := f_in in
  let '(scope_out, gfn_out) := f_out in
  assert (Nat.eqb (length (output_names gfn_in)) (length (input_names gfn_out)))
         ("graph function link " ++ PyStr.format_opt scope_in ++ " -> " ++
          PyStr.format_opt scope_out ++ " require compatible layers") ;;;
  if negb (Nat.eqb (length (input_names gfn_out)) 1)
  then raise (NotImplementedError
                "Only support single input/output for intermediary layers")
  else ret tt.

(** The loop of lines 212 to 216 over [zip(functions[:-1], functions[1:])]. *)
Fixpoint check_links (pairs : list (unit_ * unit_)) : Py unit :=
  match pairs with
  | [] => ret tt
  | (f_in, f_out) :: pairs' => check_link f_in f_out ;;; check_links pairs'
  end.

(** Lines 219 to 225: the first function is imported, unscoped, into a
    session of its own to read off its placeholders. *)
Definition first_input_info (functions : list unit_)
  : Py (list (DType * Shape * string)) :=
  with_IsolatedSession None false (λ issn,
    let* (_, first_gfn) := item functions 0 in
    let* (feeds, _) := import_graph_function issn first_gfn None (Some "") ∅ in
    mapM (λ tnsr,
            let* name := call (op_name (graph issn) tnsr) in
            ret (tensor_dtype tnsr, tensor_shape tnsr, name)) feeds).

(** Lines 235 and 236: the scope stage [idx] is imported under;
    [scope is None or len(scope.strip()) == 0] selects the positional
    default. *)
Definition stage_scope (idx : nat) (scope : option string) : string :=
  match scope with
  | None => "GFN-BLK-" ++ PyStr.format_nat idx
  | Some s =>
      if Nat.eqb (String.length (PyStr.strip s)) 0
      then "GFN-BLK-" ++ PyStr.format_nat idx
      else s
  end.

(** The loop of lines 233 to 242 from stage [idx] on; it returns the last
    [prev_outputs]. *)
Fixpoint chain (issn : IsolatedSession) (idx : nat) (functions : list unit_)
    (prev_outputs : list Tensor) : Py (list Tensor) :=
  match functions with
  | [] => ret prev_outputs
  | (scope, gfn) :: functions' =>
      let scope := stage_scope idx scope in
      let _msg := "merge: stage " ++ PyStr.format_nat idx ++ ", scope " ++ scope in
      effect (logger_info _msg) ;;;
      let input_map := dict_zip (input_names gfn) prev_outputs in
      let* (_, fetches) :=
        import_graph_function issn gfn (Some input_map) (Some scope) ∅ in
      chain issn (S idx) functions' fetches
  end.

(** Lines 228 to 250: the chain is built in a second session and
    exported. *)
Definition build_chain (functions : list unit_)
    (first_input_info : list (DType * Shape * string)) : Py GraphFunction :=
  with_IsolatedSession None false (λ issn,
    let* first_inputs :=
      mapM (λ '(dtype, shape, name), call (tf_placeholder dtype shape name))
           first_input_info in
    let* prev_outputs := chain issn 0 functions first_inputs in
    let* (_, last_gfn) := last_item functions in
    let last_output_names := output_names last_gfn in
    let* last_outputs :=
      mapM (λ '(tnsr, name), call (tf_identity tnsr name))
           (zip prev_outputs last_output_names) in
    asGraphFunction issn first_inputs last_outputs true).

(** [GraphFunction.from_list(cls, functions)].  The assertion of line 209
    carries the sequence next to its message; the message is kept. *)
Definition from_list (functions : list unit_) : Py from_list_value :=
  assert (Nat.leb 1 (length functions)) "must provide at least one function" ;;;
  if Nat.eqb 1 (length functions)
  then let* (scope, gfn) := item functions 0 in ret (TupleValue scope gfn)
  else
    check_links (zip (removelast functions) (drop 1 functions)) ;;;
    let* info := first_input_info functions in
    let* gfn := build_chain functions info in
    ret (GraphFunctionValue gfn).

End GraphBuilder.

Arguments GraphFunction : clear implicits.
Arguments IsolatedSession : clear implicits.

(** ** What the validation of a merge sequence checks *)

(** The exceptions other than the one of line 216. *)
Definition not_unsupported (e : exn) : Prop :=
  match e with
  | NotImplementedError _ => False
  | _ => True
  end.

(** The exceptions the validation of [from_list] raises. *)
Definition validation_error (e : exn) : Prop :=
  match e with
  | AssertionError _ | NotImplementedError _ => True
  | _ => False
  end.

(** The result is the exception of line 216. *)
Definition raises_unsupported {A W} (r : result A * W) : Prop :=
  r.1 = Raise (NotImplementedError
                 "Only support single input/output for intermediary layers").

Section MergeSpec.
Context {E : Engine}.
Implicit Types (f f_in f_out : unit_ (E := E)) (w : World).
Implicit Types (fs pre post : list (unit_ (E := E))).

(** The two conditions line 213 and line 215 put on an adjacent pair. *)
Definition arity_match f_in f_out : Prop :=
  length (output_names f_in.2) = length (input_names f_out.2).
Definition single_input f : Prop := length (input_names f.2) = 1.

(** Every adjacent pair of the sequence passes both. *)
Fixpoint linked fs : Prop :=
  match fs with
  | f_in :: (f_out :: _) as fs' =>
      (arity_match f_in f_out ∧ single_input f_out) ∧ linked fs'
  | _ => True
  end.

(** [f_in, f_out] is the first adjacent pair of the sequence that fails
    one of the two. *)
Inductive first_offence : list unit_ → unit_ → unit_ → Prop :=
| offence_here f_in f_out fs :
    ¬ (arity_match f_in f_out ∧ single_input f_out) →
    first_offence (f_in :: f_out :: fs) f_in f_out
| offence_later f f' fs f_in f_out :
    arity_match f f' ∧ single_input f' →
    first_offence (f' :: fs) f_in f_out →
    first_offence (f :: f' :: fs) f_in f_out.

(** The exception line 213 or line 216 raises on an offending pair. *)
Definition offence_error f_in f_out : exn :=
  if Nat.eqb (length (output_names f_in.2)) (length (input_names f_out.2))
  then NotImplementedError
         "Only support single input/output for intermediary layers"
  else AssertionError
         ("graph function link " ++ PyStr.format_opt f_in.1 ++ " -> " ++
          PyStr.format_opt f_out.1 ++ " require compatible layers").

(** [zip(functions[:-1], functions[1:])] *)
Definition adjacent fs : list (unit_ * unit_) := zip (removelast fs) (drop 1 fs).

(** The sequence is empty, or one of its adjacent pairs has an arity
    mismatch or a right-hand unit that does not declare one input. *)
Definition violates fs : Prop :=
  fs = [] ∨
  ∃ pre f_in f_out post,
    fs = (pre ++ f_in :: f_out :: post)%list ∧
    (¬ arity_match f_in f_out ∨ ¬ single_input f_out).

(** C3 as the specification words it: the exception of line 216 is raised
    exactly when a unit other than the last does not declare one input. *)
Definition nonterminal_reading fs w : Prop :=
  raises_unsupported (from_list fs w) ↔
  ∃ i f, (i < length fs - 1)%nat ∧ fs !! i = Some f ∧ ¬ single_input f.

End MergeSpec.

(** ** A reference engine

    A small deterministic stand-in for the collaborators, on which the
    embedding runs: a tensor is the name of its operation, a graph
    definition is kept in its serialized form, the file system holds the
    temporary directories, the saved Keras models and the joblib files, and
    every call that touches a graph or a session is recorded. *)

Module RefEngine.

Record keras_model := KModel {
  km_inputs : list string;
  km_outputs : list string;
  (* the model has a layer that [load_model] cannot rebuild without
     [custom_objects] *)
  km_custom_layer : bool
}.

(** A file system as the list of its entries, the latest first. *)
Fixpoint read_file {V} (path : string) (files : list (string * V)) : option V :=
  match files with
  | [] => None
  | (p, v) :: files' => if String.eqb p path then Some v else read_file path files'
  end.

Definition has_dir (d : string) (dirs : list string) : bool :=
  existsb (String.eqb d) dirs.

Record world := mkWorld {
  dirs : list string;
  h5_files : list (string * keras_model);
  jl_files : list (string * container);
  fresh : nat;
  trace : list string
}.

Definition empty_world : world := mkWorld [] [] [] 0 [].

Definition record (ev : string) (w : world) : world :=
  mkWorld (dirs w) (h5_files w) (jl_files w) (fresh w) (trace w ++ [ev])%list.

Definition new_handle (ev : string) (w : world) : (ext_exn + nat) * world :=
  (inr (fresh w),
   mkWorld (dirs w) (h5_files w) (jl_files w) (S (fresh w)) (trace w ++ [ev])%list).

Definition done {A} (ev : string) (a : A) (w : world) : (ext_exn + A) * world :=
  (inr a, record ev w).

Definition snapshot (outputs : list string) : list byte :=
  concat (map (λ n, list_byte_of_string n) outputs).

Definition ref_mkdtemp (prefix : string) (w : world) : (ext_exn + string) * world :=
  let d := "/tmp/" ++ prefix ++ PyStr.format_nat (fresh w) in
  (inr d, mkWorld (d :: dirs w) (h5_files w) (jl_files w) (S (fresh w)) (trace w)).

Definition ref_rmtree (d : string) (w : world) : world :=
  mkWorld (filter (λ d', d' ≠ d) (dirs w))
          (filter (λ kv, PyPath.parent kv.1 ≠ d) (h5_files w))
          (jl_files w) (fresh w) (trace w).

Definition ref_model_save (m : keras_model) (path : string) (w : world)
  : (ext_exn + unit) * world :=
  if has_dir (PyPath.parent path) (dirs w)
  then (inr tt, mkWorld (dirs w) ((path, m) :: h5_files w) (jl_files w)
                        (fresh w) (trace w))
  else (inl (ExtExn "OSError" "unable to create file"), w).

Definition ref_load_model (path : string) (w : world)
  : (ext_exn + keras_model) * world :=
  match read_file path (h5_files w) with
  | None => (inl (ExtExn "OSError" "unable to open file"), w)
  | Some m =>
      if km_custom_layer m
      then (inl (ExtExn "ValueError" "Unknown layer"), w)
      else (inr m, record "load_model" w)
  end.

Definition ref_jl_dump (c : container) (path : string) (w : world)
  : (ext_exn + unit) * world :=
  (inr tt, mkWorld (dirs w) (h5_files w) ((path, c) :: jl_files w)
                   (fresh w) (trace w)).

Definition ref_jl_load (path : string) (w : world)
  : (ext_exn + container) * world :=
  match read_file path (jl_files w) with
  | Some c => (inr c, w)
  | None => (inl (ExtExn "IOError" "No such file or directory"), w)
  end.

#[export] Instance engine : Engine := {|
  World := world;
  GraphDef := list byte;
  Graph := nat;
  Session := nat;
  Tensor := string;
  DType := string;
  Shape := list nat;
  KerasModel := keras_model;
  Kwarg := string;
  tf_Graph := new_handle "tf.Graph";
  tf_Session := λ g, done "tf.Session" g;
  sess_as_default := λ _, done "Session.as_default" tt;
  sess_enter := λ _, done "Session.__enter__" tt;
  sess_exit := λ _, done "Session.__exit__" tt;
  graph_as_graph_def := λ _, done "Graph.as_graph_def" [];
  tf_import_graph_def := λ _ _ _ _ _, done "tf.import_graph_def" tt;
  tf_placeholder := λ _ _ name, done "tf.placeholder" name;
  tf_identity := λ _ name, done "tf.identity" name;
  tensor_dtype := λ _, "float32";
  tensor_shape := λ _, [];
  SerializeToString := λ d, d;
  FromString := λ b, inr b;
  strip_and_freeze_until := λ outputs _ _, done "strip_and_freeze_until" (snapshot outputs);
  validated_input := λ _ t w, (inr t, w);
  validated_output := λ _ t w, (inr t, w);
  get_tensor := λ _ name w, (inr name, w);
  op_name := λ _ t w, (inr t, w);
  K_get_session := new_handle "K.get_session";
  K_set_session := λ _, done "K.set_session" tt;
  K_set_learning_phase := λ _, done "K.set_learning_phase" tt;
  load_model := ref_load_model;
  model_save := ref_model_save;
  model_inputs := km_inputs;
  model_outputs := km_outputs;
  jl_dump := ref_jl_dump;
  jl_load := ref_jl_load;
  mkdtemp := ref_mkdtemp;
  rmtree_ignore_errors := ref_rmtree;
  logger_info := λ _ w, w
|}.

Definition gfn (ins outs : list string) : GraphFunction engine :=
  mkGraphFunction (snapshot outs) ins outs.

(** *** Sample inputs *)

(** A session as [IsolatedSession()] makes it in the empty world. *)
Definition issn0 : IsolatedSession engine := mkIsolatedSession 0 0 None.

(** Two units that chain, in the sense of the module's docstring. *)
Definition chain_ab : list unit_ :=
  [(Some "a", gfn ["x"] ["y1"]); (Some "b", gfn ["y1"] ["y2"])].

(** Two units with matching arity whose last unit declares two inputs. *)
Definition wide_link : list unit_ :=
  [(Some "a", gfn ["x"] ["y1"; "y2"]); (Some "b", gfn ["y1"; "y2"] ["z"])].

(** Two units whose first unit declares two inputs. *)
Definition wide_first : list unit_ :=
  [(Some "a", gfn ["x1"; "x2"] ["y"]); (Some "b", gfn ["y"] ["z"])].

(** Two units with an arity mismatch, the second without a label. *)
Definition mismatch : list unit_ :=
  [(Some "a", gfn ["x"] ["y1"; "y2"]); (None, gfn ["y"] ["z"])].

(** A joblib file without the input names. *)
Definition no_inputs : container := Container (Some []) None (Some ["y"]).
Definition world_no_inputs : world := (ref_jl_dump no_inputs "g.jl" empty_world).2.

(** A Keras model with a layer that [load_model] does not know. *)
Definition custom_model : keras_model := KModel ["input_1"] ["output_1"] true.
Definition plain_model : keras_model := KModel ["input_1"] ["output_1"] false.

End RefEngine.

(** ** Observations of the world and what the collaborators do to them

    The module leaves several things to its collaborators that it then
    relies on: the stack of default sessions that [Session.__enter__] and
    [Session.__exit__] push and pop, the session Keras holds, the names of
    the operations behind the tensors.  They are stated here as what a call
    does to an observation of the world. *)

(** The exceptions that come out of a collaborator. *)
Definition external (e : exn) : Prop :=
  match e with
  | External _ => True
  | _ => False
  end.

Section Contracts.
Context {E : Engine}.

(** A collaborator call leaves the observation as it was, whether it
    returns or raises. *)
Definition frame {X A} (obs : World → X) (op : World → (ext_exn + A) * World)
  : Prop :=
  ∀ w, obs (op w).2 = obs w.

(** A computation of the module leaves the observation as it was, on
    every exit. *)
Definition keeps {X A} (obs : World → X) (c : M World A) : Prop :=
  ∀ w, obs (c w).2 = obs w.

(** A collaborator call always returns. *)
Definition total {A} (op : World → (ext_exn + A) * World) : Prop :=
  ∀ w, ∃ a, (op w).1 = inr a.

(** [current] is the session Keras holds: [K.get_session] returns it,
    [K.set_session] replaces it and always returns, and creating, entering
    and leaving a TensorFlow session do not touch it. *)
Record keras_registry (current : World → Session) : Prop := {
  registry_get : ∀ w, current (K_get_session w).2 = current w ∧
                      ∀ s, (K_get_session w).1 = inr s → s = current w;
  registry_set : ∀ s w, (K_set_session s w).1 = inr tt ∧
                        current (K_set_session s w).2 = s;
  registry_Graph : frame current tf_Graph;
  registry_Session : ∀ g, frame current (tf_Session g);
  registry_as_default : ∀ s, frame current (sess_as_default s);
  registry_enter : ∀ s, frame current (sess_enter s);
  registry_exit : ∀ s, frame current (sess_exit s)
}.

(** [depth] is the height of the stack of default sessions:
    [Session.__enter__] pushes when it returns, [Session.__exit__] pops
    whether it returns or raises, and no other call changes it. *)
Record session_stack (depth : World → nat) : Prop := {
  stack_enter : ∀ s w, depth (sess_enter s w).2 =
                       match (sess_enter s w).1 with
                       | inr _ => S (depth w)
                       | inl _ => depth w
                       end;
  stack_exit : ∀ s w, depth (sess_exit s w).2 = pred (depth w);
  stack_Graph : frame depth tf_Graph;
  stack_Session : ∀ g, frame depth (tf_Session g);
  stack_as_default : ∀ s, frame depth (sess_as_default s);
  stack_as_graph_def : ∀ g, frame depth (graph_as_graph_def g);
  stack_import : ∀ gdef im re name kargs,
      frame depth (tf_import_graph_def gdef im re name kargs);
  stack_placeholder : ∀ dtype shape name, frame depth (tf_placeholder dtype shape name);
  stack_identity : ∀ t name, frame depth (tf_identity t name);
  stack_strip : ∀ outs g s, frame depth (strip_and_freeze_until outs g s);
  stack_validated_input : ∀ g t, frame depth (validated_input g t);
  stack_validated_output : ∀ g t, frame depth (validated_output g t);
  stack_get_tensor : ∀ g name, frame depth (get_tensor g name);
  stack_op_name : ∀ g t, frame depth (op_name g t);
  stack_get_session : frame depth K_get_session;
  stack_set_session : ∀ s, frame depth (K_set_session s);
  stack_learning_phase : ∀ n, frame depth (K_set_learning_phase n);
  stack_load_model : ∀ path, frame depth (load_model path);
  stack_model_save : ∀ m path, frame depth (model_save m path);
  stack_mkdtemp : ∀ prefix, frame depth (mkdtemp prefix);
  stack_rmtree : ∀ d w, depth (rmtree_ignore_errors d w) = depth w;
  stack_logger : ∀ msg w, depth (logger_info msg w) = depth w
}.

(** [name_of] is the name of the operation behind a tensor: a placeholder
    and a tensor looked up by name carry the name asked for, and [op_name]
    and [validated_input] return it. *)
Record operation_names (name_of : Tensor → string) : Prop := {
  names_placeholder : ∀ dtype shape name w t w',
      tf_placeholder dtype shape name w = (inr t, w') → name_of t = name;
  names_get_tensor : ∀ g name w t w',
      get_tensor g name w = (inr t, w') → name_of t = name;
  names_op_name : ∀ g t w s w', op_name g t w = (inr s, w') → s = name_of t;
  names_validated_input : ∀ g t w s w',
      validated_input g t w = (inr s, w') → s = name_of t
}.

End Contracts.

(** ** The reference engine with a Keras session registry

    The reference engine, with the session Keras holds next to its world:
    [K.get_session] returns it and [K.set_session] replaces it. *)

Module KerasRegistry.

Definition kworld : Type := RefEngine.world * nat.

Definition lift {A} (op : RefEngine.world → (ext_exn + A) * RefEngine.world)
    (kw : kworld) : (ext_exn + A) * kworld :=
  ((op kw.1).1, ((op kw.1).2, kw.2)).

Definition lift_effect (f : RefEngine.world → RefEngine.world) (kw : kworld)
  : kworld :=
  (f kw.1, kw.2).

#[export] Instance engine : Engine := {|
  World := kworld;
  GraphDef := list byte;
  Graph := nat;
  Session := nat;
  Tensor := string;
  DType := string;
  Shape := list nat;
  KerasModel := RefEngine.keras_model;
  Kwarg := string;
  tf_Graph := lift (tf_Graph (Engine := RefEngine.engine));
  tf_Session := λ g, lift (tf_Session (Engine := RefEngine.engine) g);
  sess_as_default := λ s, lift (sess_as_default (Engine := RefEngine.engine) s);
  sess_enter := λ s, lift (sess_enter (Engine := RefEngine.engine) s);
  sess_exit := λ s, lift (sess_exit (Engine := RefEngine.engine) s);
  graph_as_graph_def := λ g, lift (graph_as_graph_def (Engine := RefEngine.engine) g);
  tf_import_graph_def := λ gdef im re name kargs,
    lift (tf_import_graph_def (Engine := RefEngine.engine) gdef im re name kargs);
  tf_placeholder := λ dtype shape name,
    lift (tf_placeholder (Engine := RefEngine.engine) dtype shape name);
  tf_identity := λ t name, lift (tf_identity (Engine := RefEngine.engine) t name);
  tensor_dtype := tensor_dtype (Engine := RefEngine.engine);
  tensor_shape := tensor_shape (Engine := RefEngine.engine);
  SerializeToString := SerializeToString (Engine := RefEngine.engine);
  FromString := FromString (Engine := RefEngine.engine);
  strip_and_freeze_until := λ outs g s,
    lift (strip_and_freeze_until (Engine := RefEngine.engine) outs g s);
  validated_input := λ g t, lift (validated_input (Engine := RefEngine.engine) g t);
  validated_output := λ g t, lift (validated_output (Engine := RefEngine.engine) g t);
  get_tensor := λ g name, lift (get_tensor (Engine := RefEngine.engine) g name);
  op_name := λ g t, lift (op_name (Engine := RefEngine.engine) g t);
  K_get_session := λ kw, (inr kw.2, kw);
  K_set_session := λ s kw, (inr tt, (kw.1, s));
  K_set_learning_phase := λ n,
    lift (K_set_learning_phase (Engine := RefEngine.engine) n);
  load_model := λ path, lift (load_model (Engine := RefEngine.engine) path);
  model_save := λ m path, lift (model_save (Engine := RefEngine.engine) m path);
  model_inputs := model_inputs (Engine := RefEngine.engine);
  model_outputs := model_outputs (Engine := RefEngine.engine);
  jl_dump := λ c path, lift (jl_dump (Engine := RefEngine.engine) c path);
  jl_load := λ path, lift (jl_load (Engine := RefEngine.engine) path);
  mkdtemp := λ prefix, lift (mkdtemp (Engine := RefEngine.engine) prefix);
  rmtree_ignore_errors := λ d,
    lift_effect (rmtree_ignore_errors (Engine := RefEngine.engine) d);
  logger_info := λ msg, lift_effect (logger_info (Engine := RefEngine.engine) msg)
|}.

(** The session Keras holds. *)
Definition current (kw : kworld) : nat := kw.2.

(** A body that hands Keras another session and then raises. *)
Definition rogue_body (issn : IsolatedSession engine) : M kworld unit :=
  call (K_set_session (Engine := engine) 99) ;;;
  raise (External (ExtExn "RuntimeError" "body failed")).

End KerasRegistry.

(** ** The reference engine with TensorFlow's operation names

    The reference engine with graphs that hold the names of their
    operations, which is what decides the names the module reads back:
    a new operation gets the name asked for, or, when the graph has an
    operation of that name, the name followed by "_1", "_2", ... as
    [Graph.unique_name] makes it; [tf.import_graph_def] puts the operations
    of a definition behind the name it is given and "/", behind "import/"
    when it is given [None], and as they are when it is given the empty
    name; a tensor is looked up by the name of its operation in the graph.
    Operations go to the graph of the innermost session entered.  A graph
    definition is the list of the names of its operations; pruning is not
    modelled. *)

Module TfNames.

Record tf_state := TfState {
  graphs : list (list string);
  stack : list nat
}.

Definition tworld : Type := RefEngine.world * tf_state.

(** The process-wide default graph, number 0, and no session entered. *)
Definition initial : tworld := (RefEngine.empty_world, TfState [[]] []).

Definition current (st : tf_state) : nat :=
  match stack st with
  | g :: _ => g
  | [] => 0
  end.

Definition names_of (st : tf_state) (g : nat) : list string :=
  match graphs st !! g with
  | Some names => names
  | None => []
  end.

Definition has_name (name : string) (names : list string) : bool :=
  existsb (String.eqb name) names.

(** The first of [name_k], [name_(k+1)], ... that is free. *)
Fixpoint first_free (used : list string) (name : string) (k fuel : nat) : string :=
  let candidate := name ++ "_" ++ PyStr.format_nat k in
  match fuel with
  | 0 => candidate
  | S fuel' =>
      if has_name candidate used then first_free used name (S k) fuel'
      else candidate
  end.

(** [Graph.unique_name] *)
Definition unique_name (used : list string) (name : string) : string :=
  if has_name name used then first_free used name 1 (length used) else name.

Definition add_names (new : list string) (tw : tworld) : tworld :=
  (tw.1, TfState (alter (λ names, (names ++ new)%list) (current tw.2) (graphs tw.2))
                 (stack tw.2)).

(** A new operation in the current graph; the tensor is its name. *)
Definition add_op (name : string) (tw : tworld) : (ext_exn + string) * tworld :=
  let n := unique_name (names_of tw.2 (current tw.2)) name in
  (inr n, add_names [n] tw).

Definition import_prefix (name : option string) : string :=
  match name with
  | None => "import/"
  | Some EmptyString => ""
  | Some n => n ++ "/"
  end.

Definition import_graph_def (gdef : list string) (return_elements : list string)
    (name : option string) (tw : tworld) : (ext_exn + unit) * tworld :=
  let new := map (λ n, import_prefix name ++ n) gdef in
  if negb (forallb (λ r, has_name r gdef) return_elements)
  then (inl (ExtExn "ValueError" "Requested return node not found in graph_def"), tw)
  else if existsb (λ n, has_name n (names_of tw.2 (current tw.2))) new
  then (inl (ExtExn "ValueError" "names would conflict with existing operations"), tw)
  else (inr tt, add_names new tw).

Definition lookup (g : nat) (name : string) (tw : tworld)
  : (ext_exn + string) * tworld :=
  if has_name name (names_of tw.2 g) then (inr name, tw)
  else (inl (ExtExn "KeyError" "The name refers to an operation not in the graph"), tw).

Definition new_graph (tw : tworld) : (ext_exn + nat) * tworld :=
  (inr (length (graphs tw.2)),
   (tw.1, TfState (graphs tw.2 ++ [[]])%list (stack tw.2))).

Definition enter (s : nat) (tw : tworld) : (ext_exn + unit) * tworld :=
  (inr tt, (tw.1, TfState (graphs tw.2) (s :: stack tw.2))).

Definition leave (s : nat) (tw : tworld) : (ext_exn + unit) * tworld :=
  (inr tt, (tw.1, TfState (graphs tw.2) (tail (stack tw.2)))).

Definition snapshot (g : nat) (tw : tworld) : (ext_exn + list string) * tworld :=
  (inr (names_of tw.2 g), tw).

Definition newline : byte := Byte.x0a.

Definition serialize (gdef : list string) : list byte :=
  concat (map (λ n, (list_byte_of_string n ++ [newline])%list) gdef).

Fixpoint lines (b : list byte) (cur : list byte) : list string :=
  match b with
  | [] => match cur with
          | [] => []
          | _ => [string_of_list_byte (rev cur)]
          end
  | c :: b' =>
      if Byte.eqb c newline then string_of_list_byte (rev cur) :: lines b' []
      else lines b' (c :: cur)
  end.

Definition lift {A} (op : RefEngine.world → (ext_exn + A) * RefEngine.world)
    (tw : tworld) : (ext_exn + A) * tworld :=
  ((op tw.1).1, ((op tw.1).2, tw.2)).

Definition lift_effect (f : RefEngine.world → RefEngine.world) (tw : tworld)
  : tworld :=
  (f tw.1, tw.2).

#[export] Instance engine : Engine := {|
  World := tworld;
  GraphDef := list string;
  Graph := nat;
  Session := nat;
  Tensor := string;
  DType := string;
  Shape := list nat;
  KerasModel := RefEngine.keras_model;
  Kwarg := string;
  tf_Graph := new_graph;
  tf_Session := λ g tw, (inr g, tw);
  sess_as_default := λ _ tw, (inr tt, tw);
  sess_enter := enter;
  sess_exit := leave;
  graph_as_graph_def := snapshot;
  tf_import_graph_def := λ gdef _ return_elements name _,
    import_graph_def gdef return_elements name;
  tf_placeholder := λ _ _ name, add_op name;
  tf_identity := λ _ name, add_op name;
  tensor_dtype := λ _, "float32";
  tensor_shape := λ _, [];
  SerializeToString := serialize;
  FromString := λ b, inr (lines b []);
  strip_and_freeze_until := λ _ g _, snapshot g;
  validated_input := lookup;
  validated_output := lookup;
  get_tensor := lookup;
  op_name := λ _ t tw, (inr t, tw);
  K_get_session := lift (K_get_session (Engine := RefEngine.engine));
  K_set_session := λ s, lift (K_set_session (Engine := RefEngine.engine) s);
  K_set_learning_phase := λ n,
    lift (K_set_learning_phase (Engine := RefEngine.engine) n);
  load_model := λ path, lift (load_model (Engine := RefEngine.engine) path);
  model_save := λ m path, lift (model_save (Engine := RefEngine.engine) m path);
  model_inputs := model_inputs (Engine := RefEngine.engine);
  model_outputs := model_outputs (Engine := RefEngine.engine);
  jl_dump := λ c path, lift (jl_dump (Engine := RefEngine.engine) c path);
  jl_load := λ path, lift (jl_load (Engine := RefEngine.engine) path);
  mkdtemp := λ prefix, lift (mkdtemp (Engine := RefEngine.engine) prefix);
  rmtree_ignore_errors := λ d,
    lift_effect (rmtree_ignore_errors (Engine := RefEngine.engine) d);
  logger_info := λ msg, lift_effect (logger_info (Engine := RefEngine.engine) msg)
|}.

(** A unit with the operations [ins] and [outs]. *)
Definition unit_of (ins outs : list string) : GraphFunction engine :=
  mkGraphFunction (ins ++ outs)%list ins outs.

(** The session of the default graph. *)
Definition issn0 : IsolatedSession engine := mkIsolatedSession 0 0 None.



End TfNames.

(** ** Two statements as the specification words them *)

Section Readings.
Context {E : Engine}.

(** A [name] that is [None], empty or whitespace only. *)
Definition blank_name (name : option string) : Prop :=
  match name with
  | None => True
  | Some s => PyStr.only_whitespace s = true
  end.

(** C10 as the specification words it: under a blank [name] the prefix is
    absent, that is, the import is the import under the empty name, which
    applies no scope and returns the handles of the declared names. *)
Definition absent_prefix_reading (self : IsolatedSession E) (gfn : GraphFunction E)
    (input_map : option (gmap string Tensor)) (kargs : gmap string Kwarg)
    (w : World) : Prop :=
  ∀ name, blank_name name →
    import_graph_function self gfn input_map name kargs w =
    import_graph_function self gfn input_map (Some "") kargs w.


End Readings.

(** ** The stack of default sessions of the reference engine *)

Module RefStack.

(** What one recorded call does to the height of the stack. *)
Definition step (d : nat) (ev : string) : nat :=
  if String.eqb ev "Session.__enter__" then S d
  else if String.eqb ev "Session.__exit__" then pred d
  else d.

(** The height of the stack after the recorded calls, from the height
    [base] before them. *)
Definition depth (base : nat) (w : RefEngine.world) : nat :=
  fold_left step (RefEngine.trace w) base.

End RefStack.

(** ** More sample inputs *)

Module Samples.
Import RefEngine.

(** A body that imports a unit under a scope and then raises. *)
Definition failing_body (issn : IsolatedSession engine) : M world unit :=
  import_graph_function issn (gfn ["x"] ["y"]) None (Some "a") ∅ ;;;
  raise (External (ExtExn "RuntimeError" "body failed")).

(** A world in which two sessions have been entered. *)
Definition nested_world : world :=
  mkWorld [] [] [] 2 ["Session.__enter__"; "Session.__enter__"].

(** Three units that chain, two of them without a label. *)
Definition chain_abc : list unit_ :=
  [(None, gfn ["x1"; "x2"] ["h"]); (Some " mid ", gfn ["h"] ["k"]);
   (Some "", gfn ["k"] ["y1"; "y2"])].

End Samples.

(** ** Properties of the string and path helpers *)

Example strip_padded : PyStr.strip "  conv 1 " = "conv 1".
Proof. reflexivity. Qed.

Example strip_blank : PyStr.strip (String "009" (String "010" " ")) = "".
Proof. reflexivity. Qed.

(** The no-break space and NEL are stripped, as [str.strip()] does. *)
Example strip_no_break_space :
  PyStr.strip (String "160" (String "a" (String "133" ""))) = "a" ∧
  PyStr.only_whitespace (String "160" (String "133" "")) = true ∧
  PyStr.only_whitespace (String "194" "") = false.
Proof. by vm_compute. Qed.

Example endswith_jl :
  PyStr.endswith "model.jl" "jl" = true ∧ PyStr.endswith "model.pkl" "jl" = false ∧
  PyStr.endswith "l" "jl" = false.
Proof. by vm_compute. Qed.

Example dump_path_examples :
  dump_path "model" = "model.jl" ∧ dump_path "model.jl" = "model.jl" ∧
  dump_path "modeljl" = "modeljl".
Proof. by vm_compute. Qed.

Example parent_examples :
  PyPath.parent "/tmp/kera-x/model.h5" = "/tmp/kera-x" ∧
  PyPath.parent "/model.h5" = "/" ∧ PyPath.parent "model.h5" = ".".
Proof. by vm_compute. Qed.

Example format_nat_examples :
  PyStr.format_nat 0 = "0" ∧ PyStr.format_nat 12 = "12".
Proof. by vm_compute. Qed.

Section DropWhile.
Context {A : Type} (p : A → bool).

Lemma drop_while_split (l : list A) :
  ∃ pre, l = (pre ++ PyStr.drop_while p l)%list.
Proof.
  induction l as [|x l [pre IH]]; simpl.
  - by exists [].
  - destruct (p x).
    + exists (x :: pre). simpl. by f_equal.
    + by exists [].
Qed.

Lemma drop_while_head (l : list A) (x : A) (l' : list A) :
  PyStr.drop_while p l = x :: l' → p x = false.
Proof.
  induction l as [|y l IH]; simpl; [done|].
  destruct (p y) eqn:Hy; [done|].
  intros [= -> _]. done.
Qed.

Lemma drop_while_id (l : list A) :
  match l with [] => True | x :: _ => p x = false end →
  PyStr.drop_while p l = l.
Proof. destruct l as [|x l]; simpl; [done|]. by intros ->. Qed.

Lemma drop_while_idemp (l : list A) :
  PyStr.drop_while p (PyStr.drop_while p l) = PyStr.drop_while p l.
Proof.
  apply drop_while_id.
  destruct (PyStr.drop_while p l) as [|x l'] eqn:Hd; [done|].
  by apply drop_while_head in Hd.
Qed.
End DropWhile.

Lemma strip_list_idemp (l : list ascii) :
  PyStr.rstrip_list (PyStr.lstrip_list (PyStr.rstrip_list (PyStr.lstrip_list l)))
  = PyStr.rstrip_list (PyStr.lstrip_list l).
Proof.
  unfold PyStr.rstrip_list, PyStr.lstrip_list.
  set (d := PyStr.drop_while PyStr.isspace l).
  set (m := rev (PyStr.drop_while PyStr.isspace (rev d))).
  assert (Hl : PyStr.drop_while PyStr.isspace m = m).
  { apply drop_while_id. destruct m as [|x m'] eqn:Hm; [done|].
    destruct (drop_while_split PyStr.isspace (rev d)) as [pre Hpre].
    apply (f_equal (@rev ascii)) in Hpre.
    rewrite rev_involutive, rev_app_distr in Hpre.
    fold m in Hpre. rewrite Hm in Hpre. simpl in Hpre.
    by apply (drop_while_head PyStr.isspace l x (m' ++ rev pre)%list). }
  rewrite Hl. unfold m. rewrite rev_involutive, drop_while_idemp. done.
Qed.

Lemma strip_idemp (s : string) : PyStr.strip (PyStr.strip s) = PyStr.strip s.
Proof.
  unfold PyStr.strip.
  by rewrite list_ascii_of_string_of_list_ascii, strip_list_idemp.
Qed.

Lemma append_cons (c : ascii) (s t : string) : String c s ++ t = String c (s ++ t).
Proof. done. Qed.

Lemma endswith_unfold (s suffix : string) :
  PyStr.endswith s suffix =
  if String.eqb s suffix then true
  else match s with
       | EmptyString => false
       | String _ s' => PyStr.endswith s' suffix
       end.
Proof. by destruct s. Qed.

Lemma endswith_refl (s : string) : PyStr.endswith s s = true.
Proof. by rewrite endswith_unfold, String.eqb_refl. Qed.

Lemma endswith_app (s suffix : string) : PyStr.endswith (s ++ suffix) suffix = true.
Proof.
  induction s as [|c s IH].
  - apply endswith_refl.
  - rewrite endswith_unfold, append_cons, IH. by destruct (String.eqb _ _).
Qed.

Lemma endswith_dot_jl (s : string) : PyStr.endswith (s ++ ".jl") "jl" = true.
Proof.
  replace (s ++ ".jl") with ((s ++ ".") ++ "jl").
  - apply endswith_app.
  - induction s as [|c s IH]; [done|]. by rewrite !append_cons, IH.
Qed.

Lemma before_last_sep_join (d name : string) :
  PyPath.before_last_sep name = None →
  PyPath.before_last_sep (PyPath.join d name) = Some d.
Proof.
  intros Hn. unfold PyPath.join.
  induction d as [|c d IH].
  - change ("" ++ "/" ++ name) with (String "/" name). simpl. by rewrite Hn.
  - rewrite append_cons. simpl. by rewrite IH.
Qed.

Lemma parent_join (d name : string) :
  PyPath.before_last_sep name = None → d ≠ "" →
  PyPath.parent (PyPath.join d name) = d.
Proof.
  intros Hn Hd. unfold PyPath.parent.
  rewrite before_last_sep_join by done. by destruct d.
Qed.

Lemma drop_while_nil {A} (p : A → bool) (l : list A) :
  PyStr.drop_while p l = [] ↔ forallb p l = true.
Proof.
  induction l as [|x l IH]; simpl; [done|].
  destruct (p x); simpl; [done|]. split; discriminate.
Qed.

Lemma strip_empty_iff (s : string) :
  PyStr.strip s = "" ↔ PyStr.only_whitespace s = true.
Proof.
  unfold PyStr.strip, PyStr.only_whitespace, PyStr.rstrip_list, PyStr.lstrip_list.
  set (l := list_ascii_of_string s). rewrite <- drop_while_nil.
  split.
  - intros H. apply (f_equal list_ascii_of_string) in H.
    rewrite list_ascii_of_string_of_list_ascii in H. simpl in H.
    apply (f_equal (@rev ascii)) in H. rewrite rev_involutive in H. simpl in H.
    destruct (PyStr.drop_while PyStr.isspace l) as [|x d] eqn:Hd; [done|].
    apply drop_while_head in Hd.
    apply drop_while_nil in H. rewrite forallb_forall in H.
    rewrite (H x) in Hd; [done|]. apply in_rev. rewrite rev_involutive. by left.
  - by intros ->.
Qed.

Lemma length_zero_iff_empty (s : string) : String.length s = 0 ↔ s = "".
Proof. by destruct s. Qed.

(** ** Properties of the monad *)

Section MonadFacts.
Context {W : Type}.
Implicit Types w : W.

Lemma bind_ok {A B} (c : M W A) (k : A → M W B) w a w1 :
  c w = (Ok a, w1) → bind c k w = k a w1.
Proof. unfold bind. by intros ->. Qed.

Lemma bind_raise {A B} (c : M W A) (k : A → M W B) w e w1 :
  c w = (Raise e, w1) → bind c k w = (Raise e, w1).
Proof. unfold bind. by intros ->. Qed.

Lemma bind_ok_inv {A B} (c : M W A) (k : A → M W B) w b w' :
  bind c k w = (Ok b, w') →
  ∃ a w1, c w = (Ok a, w1) ∧ k a w1 = (Ok b, w').
Proof.
  unfold bind. destruct (c w) as [[a|e] w1]; [|done].
  intros H. by exists a, w1.
Qed.

Lemma bind_raise_inv {A B} (c : M W A) (k : A → M W B) w e w' :
  bind c k w = (Raise e, w') →
  c w = (Raise e, w') ∨ ∃ a w1, c w = (Ok a, w1) ∧ k a w1 = (Raise e, w').
Proof.
  unfold bind. destruct (c w) as [[a|e1] w1].
  - intros H. right. by exists a, w1.
  - intros [= -> ->]. by left.
Qed.

Lemma finally_ok_inv {A} (body : M W A) (cleanup : M W unit) w a w' :
  finally body cleanup w = (Ok a, w') →
  ∃ w1, body w = (Ok a, w1) ∧ cleanup w1 = (Ok tt, w').
Proof.
  unfold finally. destruct (body w) as [r w1].
  destruct (cleanup w1) as [[[]|e] w2] eqn:Hc; [|done].
  intros [= -> ->]. by exists w1.
Qed.

Lemma call_ok_inv {A} (op : W → (ext_exn + A) * W) w a w' :
  call op w = (Ok a, w') → op w = (inr a, w').
Proof.
  unfold call. destruct (op w) as [[e|a1] w1]; [done|]. by intros [= -> ->].
Qed.

(** What a successful comprehension says about its elements. *)
Lemma mapM_ok_inv {A B} (f : A → M W B) (l : list A) w ys w' :
  mapM f l w = (Ok ys, w') →
  Forall2 (λ x y, ∃ w1 w2, f x w1 = (Ok y, w2)) l ys.
Proof.
  revert w ys w'. induction l as [|x l IH]; simpl; intros w ys w'.
  - intros [= <- _]. constructor.
  - intros H. apply bind_ok_inv in H as (y & w1 & Hy & H).
    apply bind_ok_inv in H as (ys' & w2 & Hys & H).
    injection H as <- _. constructor; eauto.
Qed.

Section RaisesOnly.
Context (P : exn → Prop).

Lemma raises_only_ret {A} (a : A) : raises_only (W := W) P (ret a).
Proof. by intros w e w'. Qed.

Lemma raises_only_raise {A} (e : exn) : P e → raises_only (W := W) P (@raise W A e).
Proof. intros He w e' w'. by intros [= <- _]. Qed.

Lemma raises_only_effect (f : W → W) : raises_only (W := W) P (effect f).
Proof. by intros w e w'. Qed.

Lemma raises_only_call {A} (op : W → (ext_exn + A) * W) :
  (∀ e, P (External e)) → raises_only (W := W) P (call op).
Proof.
  intros HP w e w'. unfold call. destruct (op w) as [[e1|a] w1]; [|done].
  intros [= <- _]. apply HP.
Qed.

Lemma raises_only_pure_call {A} (r : ext_exn + A) :
  (∀ e, P (External e)) → raises_only (W := W) P (@pure_call W A r).
Proof.
  intros HP. destruct r; simpl.
  - by apply raises_only_raise.
  - apply raises_only_ret.
Qed.

Lemma raises_only_assert (cond : bool) (msg : string) :
  P (AssertionError msg) → raises_only (W := W) P (@assert W cond msg).
Proof.
  intros HP. destruct cond; simpl.
  - apply raises_only_ret.
  - by apply raises_only_raise.
Qed.

Lemma raises_only_bind {A B} (c : M W A) (k : A → M W B) :
  raises_only (W := W) P c → (∀ a, raises_only (W := W) P (k a)) → raises_only (W := W) P (bind c k).
Proof.
  intros Hc Hk w e w' H.
  apply bind_raise_inv in H as [H|(a & w1 & _ & H)].
  - by eapply Hc.
  - by eapply Hk.
Qed.

Lemma raises_only_finally {A} (body : M W A) (cleanup : M W unit) :
  raises_only (W := W) P body → raises_only (W := W) P cleanup →
  raises_only (W := W) P (finally body cleanup).
Proof.
  intros Hb Hc w e w'. unfold finally.
  destruct (body w) as [r w1] eqn:Hbody.
  destruct (cleanup w1) as [[[]|e1] w2] eqn:Hcl.
  - intros [= -> _]. by eapply Hb.
  - intros [= <- _]. by eapply Hc.
Qed.

Lemma raises_only_mapM {A B} (f : A → M W B) (l : list A) :
  (∀ x, raises_only (W := W) P (f x)) → raises_only (W := W) P (mapM f l).
Proof.
  intros Hf. induction l as [|x l IH]; simpl.
  - apply raises_only_ret.
  - apply raises_only_bind; [done|]. intros y.
    apply raises_only_bind; [done|]. intros ys. apply raises_only_ret.
Qed.
End RaisesOnly.

End MonadFacts.

(** ** Persistence: the path written to *)

Lemma dump_path_endswith (fpath : string) :
  PyStr.endswith (dump_path fpath) "jl" = true.
Proof.
  unfold dump_path. destruct (PyStr.endswith fpath "jl") eqn:H; simpl; [done|].
  apply endswith_dot_jl.
Qed.

(** C9: the path [dump] writes to is a function of the path it is given
    (the given path when it ends with "jl", the given path followed by ".jl"
    otherwise), and applying it twice is the same as applying it once. *)
Theorem dump_path_idempotent (fpath : string) :
  dump_path fpath = (if PyStr.endswith fpath "jl" then fpath else fpath ++ ".jl") ∧
  dump_path (dump_path fpath) = dump_path fpath.
Proof.
  split.
  - unfold dump_path. by destruct (PyStr.endswith fpath "jl").
  - unfold dump_path at 1. by rewrite dump_path_endswith.
Qed.

(** ** Import of a graph function *)

Section ImportFacts.
Context {E : Engine}.
Implicit Types (self : IsolatedSession E) (gfn : GraphFunction E).
Implicit Types (w : World) (kargs : gmap string Kwarg).

Lemma check_input_map_subset gfn (m : gmap string Tensor) :
  dom m ⊆ list_to_set (C := gset string) (input_names gfn) ↔
  ∀ k, k ∈ dom m → k ∈ input_names gfn.
Proof.
  split.
  - intros H k Hk. apply H in Hk. by apply elem_of_list_to_set in Hk.
  - intros H k Hk. apply elem_of_list_to_set. by apply H.
Qed.

Lemma scoped_names_absent gfn (name : option string) :
  match name with None => True | Some s => PyStr.only_whitespace s = true end →
  scoped_names gfn name = (PyStr.strip <$> name, input_names gfn, output_names gfn) ∧
  (PyStr.strip <$> name = None ∨ PyStr.strip <$> name = Some "").
Proof.
  destruct name as [s|]; simpl; [|auto].
  intros H%strip_empty_iff. rewrite H. simpl. auto.
Qed.

Lemma scoped_names_label gfn (s : string) :
  PyStr.only_whitespace s = false →
  scoped_names gfn (Some s) =
    (Some (PyStr.strip s),
     map (λ op_name, PyStr.strip s ++ "/" ++ op_name) (input_names gfn),
     map (λ op_name, PyStr.strip s ++ "/" ++ op_name) (output_names gfn)).
Proof.
  intros H. simpl.
  destruct (PyStr.strip s) as [|c t] eqn:Hs; [|done].
  apply strip_empty_iff in Hs. congruence.
Qed.

Lemma scoped_names_strip gfn (s : string) :
  scoped_names gfn (Some (PyStr.strip s)) = scoped_names gfn (Some s).
Proof. simpl. by rewrite strip_idemp. Qed.

(** C7: when some key of a supplied [input_map] is not one of the
    declared input names, [import_graph_function] raises the assertion
    error and the world is the one it was called in, so that
    [tf.import_graph_def] has not been called; when every key is a
    declared input name the check passes and the call is the import and
    the resolution of the handles. *)
Theorem import_graph_function_checks_input_map
    self gfn (input_map : gmap string Tensor) (name : option string) kargs w :
  ((∃ k, k ∈ dom input_map ∧ k ∉ input_names gfn) →
     import_graph_function self gfn (Some input_map) name kargs w =
     (Raise (AssertionError "cannot locate provided input elements in the graph"), w))
  ∧
  ((∀ k, k ∈ dom input_map → k ∈ input_names gfn) →
     check_input_map gfn (Some input_map) w = (Ok tt, w) ∧
     import_graph_function self gfn (Some input_map) name kargs w =
     import_and_resolve self gfn (Some input_map)
       (scoped_names gfn name).1.1 (scoped_names gfn name).1.2
       (scoped_names gfn name).2 (delete "return_elements" kargs) w).
Proof.
  unfold import_graph_function, check_input_map. split.
  - intros (k & Hk & Hn).
    rewrite bool_decide_eq_false_2.
    + by destruct (scoped_names gfn name) as [[? ?] ?].
    + rewrite check_input_map_subset. intros H. by apply Hn, H.
  - intros H. rewrite bool_decide_eq_true_2 by by apply check_input_map_subset.
    split; [done|]. by destruct (scoped_names gfn name) as [[? ?] ?].
Qed.

(** C10, as the code has it: a [name] that is empty or whitespace only is
    an absent prefix: the call is the one under the empty name, which hands
    TensorFlow the empty name and returns the tensors it looks up under the
    declared input and output names, in their order.  Under [None] the
    same names are looked up, but [None] is what TensorFlow is handed.  A
    [name] with whitespace around a label is the call under the stripped
    label, which hands TensorFlow that label and returns the tensors it
    looks up under the label, "/" and the declared names. *)
Theorem import_graph_function_name_stripped
    self gfn (input_map : option (gmap string Tensor)) kargs w :
  (∀ s, PyStr.only_whitespace s = true →
     import_graph_function self gfn input_map (Some s) kargs w =
     import_graph_function self gfn input_map (Some "") kargs w)
  ∧
  import_graph_function self gfn input_map (Some "") kargs w =
  (check_input_map gfn input_map ;;;
   call (tf_import_graph_def (graph_def gfn) input_map (output_names gfn)
           (Some "") (delete "return_elements" kargs)) ;;;
   let* feeds := mapM (λ name, call (get_tensor (graph self) name))
                      (input_names gfn) in
   let* fetches := mapM (λ name, call (get_tensor (graph self) name))
                        (output_names gfn) in
   ret (feeds, fetches)) w
  ∧
  import_graph_function self gfn input_map None kargs w =
  (check_input_map gfn input_map ;;;
   call (tf_import_graph_def (graph_def gfn) input_map (output_names gfn)
           None (delete "return_elements" kargs)) ;;;
   let* feeds := mapM (λ name, call (get_tensor (graph self) name))
                      (input_names gfn) in
   let* fetches := mapM (λ name, call (get_tensor (graph self) name))
                        (output_names gfn) in
   ret (feeds, fetches)) w
  ∧
  (∀ s, PyStr.only_whitespace s = false →
     import_graph_function self gfn input_map (Some s) kargs w =
     import_graph_function self gfn input_map (Some (PyStr.strip s)) kargs w ∧
     import_graph_function self gfn input_map (Some s) kargs w =
     (check_input_map gfn input_map ;;;
      call (tf_import_graph_def (graph_def gfn) input_map (output_names gfn)
              (Some (PyStr.strip s)) (delete "return_elements" kargs)) ;;;
      let* feeds :=
        mapM (λ name, call (get_tensor (graph self) name))
             (map (λ op_name, PyStr.strip s ++ "/" ++ op_name) (input_names gfn)) in
      let* fetches :=
        mapM (λ name, call (get_tensor (graph self) name))
             (map (λ op_name, PyStr.strip s ++ "/" ++ op_name) (output_names gfn)) in
      ret (feeds, fetches)) w).
Proof.
  split_and!.
  - intros s H. unfold import_graph_function.
    destruct (scoped_names_absent gfn (Some s) H) as [-> _].
    destruct (scoped_names_absent gfn (Some "") eq_refl) as [-> _].
    simpl. apply strip_empty_iff in H. by rewrite H.
  - done.
  - done.
  - intros s H. unfold import_graph_function.
    rewrite scoped_names_strip. split; [done|].
    by rewrite (scoped_names_label gfn s H).
Qed.

End ImportFacts.

(** ** Persistence: reading back *)

Section PersistenceFacts.
Context {E : Engine}.
Implicit Types (g : GraphFunction E) (w : World).

Lemma required_keys (_st : container) :
  bool_decide ({["inputs"; "graph_def_bytes"; "outputs"]} ⊆ keys _st) =
  match st_graph_def_bytes _st, st_inputs _st, st_outputs _st with
  | Some _, Some _, Some _ => true
  | _, _, _ => false
  end.
Proof.
  destruct _st as [[b|] [i|] [o|]]; unfold keys; simpl; by vm_compute.
Qed.

Lemma from_file_loaded (fpath : string) (_st : container) w w1 :
  jl_load fpath w = (inr _st, w1) →
  from_file fpath w =
  match st_graph_def_bytes _st, st_inputs _st, st_outputs _st with
  | Some bytes, Some ins, Some outs =>
      match FromString bytes with
      | inr gdef => (Ok (mkGraphFunction gdef ins outs), w1)
      | inl e => (Raise (External e), w1)
      end
  | _, _, _ => (Raise (AssertionError ""), w1)
  end.
Proof.
  intros Hload. unfold from_file.
  rewrite (bind_ok _ _ w _st w1) by (unfold call; by rewrite Hload).
  unfold bind at 1. rewrite required_keys.
  destruct _st as [[b|] [i|] [o|]]; simpl; try done.
  unfold bind, pure_call, ret, raise. by destruct (FromString b).
Qed.

(** C8: on a container that was read, [from_file] raises the assertion
    error when one of the three fields is absent; when the three are
    present it decodes the graph definition from the stored bytes and
    returns a graph function with that definition and the stored input and
    output names (and lets the decoder's exception through when the bytes
    do not decode). *)
Theorem from_file_requires_fields (fpath : string) (_st : container) w w1 :
  jl_load fpath w = (inr _st, w1) →
  ((st_graph_def_bytes _st = None ∨ st_inputs _st = None ∨ st_outputs _st = None) →
     from_file fpath w = (Raise (AssertionError ""), w1))
  ∧
  (∀ bytes ins outs,
     _st = Container (Some bytes) (Some ins) (Some outs) →
     from_file fpath w =
     match FromString bytes with
     | inr gdef => (Ok (mkGraphFunction gdef ins outs), w1)
     | inl e => (Raise (External e), w1)
     end).
Proof.
  intros Hload. rewrite (from_file_loaded _ _ _ _ Hload). split.
  - destruct _st as [[b|] [i|] [o|]]; simpl; try done.
    intros [?|[?|?]]; done.
  - by intros bytes ins outs ->.
Qed.

(** C5: when joblib reads back what it wrote and the graph definition
    decodes from its own serialization, reading the file that
    [dump g fpath] wrote gives a graph function with the graph-definition
    bytes, input names and output names of [g]. *)
Theorem dump_from_file_roundtrip g (fpath : string) w w' :
  (∀ c path w0 w1, jl_dump c path w0 = (inr tt, w1) →
                   jl_load path w1 = (inr c, w1)) →
  (∀ d, FromString (SerializeToString d) = inr d) →
  dump g fpath w = (Ok tt, w') →
  ∃ g', from_file (dump_path fpath) w' = (Ok g', w') ∧
        SerializeToString (graph_def g') = SerializeToString (graph_def g) ∧
        input_names g' = input_names g ∧
        output_names g' = output_names g.
Proof.
  intros Hjl Hpb Hdump. unfold dump in Hdump.
  apply call_ok_inv, Hjl in Hdump.
  exists g. rewrite (from_file_loaded _ _ _ _ Hdump). simpl.
  rewrite Hpb. by destruct g.
Qed.

End PersistenceFacts.

(** ** Merging: validation *)

Section ValidationFacts.
Context {E : Engine}.
Implicit Types (f f_in f_out : unit_ (E := E)) (w : World).
Implicit Types (fs : list (unit_ (E := E))).

Lemma adjacent_cons f f' fs :
  adjacent (f :: f' :: fs) = (f, f') :: adjacent (f' :: fs).
Proof. done. Qed.

Lemma adjacent_singleton f : adjacent [f] = [].
Proof. done. Qed.

Lemma check_link_ok f_in f_out w :
  arity_match f_in f_out ∧ single_input f_out →
  check_link f_in f_out w = (Ok tt, w).
Proof.
  destruct f_in as [s1 g1], f_out as [s2 g2].
  unfold arity_match, single_input, check_link. simpl. intros [Ha Hs].
  rewrite Ha, Hs. by rewrite !Nat.eqb_refl.
Qed.

Lemma check_link_offence f_in f_out w :
  ¬ (arity_match f_in f_out ∧ single_input f_out) →
  check_link f_in f_out w = (Raise (offence_error f_in f_out), w).
Proof.
  destruct f_in as [s1 g1], f_out as [s2 g2].
  unfold arity_match, single_input, check_link, offence_error. simpl. intros H.
  destruct (Nat.eqb_spec (length (output_names g1)) (length (input_names g2)))
    as [Ha|Ha]; [|done].
  destruct (Nat.eqb_spec (length (input_names g2)) 1) as [Hs|Hs]; [|done].
  by destruct H.
Qed.

Lemma linked_or_offence fs :
  linked fs ∨ ∃ f_in f_out, first_offence fs f_in f_out.
Proof.
  induction fs as [|f fs IH]; [by left|].
  destruct fs as [|f' fs]; [by left|].
  assert (Hd : (arity_match f f' ∧ single_input f') ∨
             ¬ (arity_match f f' ∧ single_input f')).
{ unfold arity_match, single_input.
  destruct (decide (length (output_names f.2) = length (input_names f'.2))),
           (decide (length (input_names f'.2) = 1)); tauto. }
destruct Hd as [Hl|Hl].
  - destruct IH as [IH|(f_in & f_out & IH)].
    + left. by split.
    + right. exists f_in, f_out. by apply offence_later.
  - right. exists f, f'. by apply offence_here.
Qed.

Lemma first_offence_not_linked fs f_in f_out :
  first_offence fs f_in f_out → ¬ linked fs.
Proof. induction 1; simpl; tauto. Qed.

Lemma first_offence_unique fs f_in f_out f_in' f_out' :
  first_offence fs f_in f_out → first_offence fs f_in' f_out' →
  f_in = f_in' ∧ f_out = f_out'.
Proof.
  intros H. revert f_in' f_out'.
  induction H as [f_in f_out fs Hn|f f' fs f_in f_out Hl H IH];
    intros f_in' f_out' H'; inversion H'; subst; auto; tauto.
Qed.

(** The offending pair sits behind a prefix whose pairs all pass, and is
    an adjacent pair of the sequence. *)
Lemma first_offence_split fs f_in f_out :
  first_offence fs f_in f_out ↔
  ∃ pre post, fs = (pre ++ f_in :: f_out :: post)%list ∧
              linked (pre ++ [f_in])%list ∧
              ¬ (arity_match f_in f_out ∧ single_input f_out).
Proof.
  split.
  - induction 1 as [f_in f_out fs Hn|f f' fs f_in f_out Hl H IH].
    + by exists [], fs.
    + destruct IH as (pre & post & Heq & Hpre & Hn).
      exists (f :: pre), post. rewrite Heq. split_and!; [done| |done].
      destruct pre as [|p pre]; simpl in *.
      * injection Heq as -> _. by split.
      * injection Heq as -> _. by split.
  - intros (pre & post & -> & Hpre & Hn).
    induction pre as [|p pre IH]; simpl in *.
    + by apply offence_here.
    + destruct pre as [|p' pre]; simpl in *.
      * apply offence_later; [tauto|]. by apply offence_here.
      * apply offence_later; [tauto|]. apply IH. tauto.
Qed.

Lemma check_links_linked fs w :
  linked fs → check_links (adjacent fs) w = (Ok tt, w).
Proof.
  induction fs as [|f fs IH]; [done|].
  destruct fs as [|f' fs]; [done|].
  intros [Hl Hfs]. rewrite adjacent_cons. simpl.
  rewrite (bind_ok _ _ w tt w) by by apply check_link_ok. by apply IH.
Qed.

Lemma check_links_offence fs f_in f_out w :
  first_offence fs f_in f_out →
  check_links (adjacent fs) w = (Raise (offence_error f_in f_out), w).
Proof.
  induction 1 as [f_in f_out fs Hn|f f' fs f_in f_out Hl H IH];
    rewrite adjacent_cons; simpl.
  - by apply bind_raise, check_link_offence.
  - by rewrite (bind_ok _ _ w tt w) by by apply check_link_ok.
Qed.

(** [from_list] on the empty sequence. *)
Lemma from_list_nil w :
  from_list [] w =
  (Raise (AssertionError "must provide at least one function"), w).
Proof. done. Qed.

(** [from_list] on a sequence with an offending pair. *)
Lemma from_list_offence fs f_in f_out w :
  first_offence fs f_in f_out →
  from_list fs w = (Raise (offence_error f_in f_out), w).
Proof.
  intros H. pose proof (check_links_offence fs f_in f_out w H) as Hc.
  destruct H; unfold from_list; simpl length;
    (rewrite (bind_ok _ _ w tt w) by done); simpl Nat.eqb; cbv iota;
    by apply bind_raise.
Qed.

(** [from_list] on a sequence of two or more whose pairs all pass:
    the two sessions are run. *)
Lemma from_list_linked fs w :
  (2 ≤ length fs)%nat → linked fs →
  from_list fs w =
  (let* info := first_input_info fs in
   let* gfn := build_chain fs info in
   ret (GraphFunctionValue gfn)) w.
Proof.
  intros Hlen Hl. unfold from_list.
  destruct fs as [|f [|f' fs]]; simpl in Hlen; [lia|lia|].
  simpl length. rewrite (bind_ok _ _ w tt w) by done.
  change (Nat.eqb 1 (S (S (length fs)))) with false. cbv iota.
  by rewrite (bind_ok _ _ w tt w) by by apply check_links_linked.
Qed.

(** C1: on a one-element sequence [from_list] returns the element of the
    sequence, the pair of the label and the graph function, and not the
    graph function: line 211 returns [functions[0]]. *)
Theorem from_list_singleton_returns_pair
    (label : option string) (g : GraphFunction E) w :
  from_list [(label, g)] w = (Ok (TupleValue label g), w) ∧
  from_list [(label, g)] w ≠ (Ok (GraphFunctionValue g), w).
Proof. split; [done|]. by intros [=]. Qed.

End ValidationFacts.

(** ** Merging: what the two sessions can raise *)

Ltac raises_step :=
  first [ apply raises_only_ret
        | apply raises_only_effect
        | apply raises_only_call; done
        | apply raises_only_pure_call; done
        | apply raises_only_assert; done
        | apply raises_only_raise; done
        | apply raises_only_mapM; intro
        | apply raises_only_finally
        | apply raises_only_bind; [|intro] ].

Section SessionFacts.
Context {E : Engine}.
Implicit Types (self issn : IsolatedSession E) (gfn : GraphFunction E).
Implicit Types (fs : list (unit_ (E := E))) (w : World).

Lemma import_graph_function_not_unsupported self gfn input_map name kargs :
  raises_only not_unsupported (import_graph_function self gfn input_map name kargs).
Proof.
  unfold import_graph_function, check_input_map, import_and_resolve.
  destruct (scoped_names gfn name) as [[n ins] outs].
  destruct input_map; repeat raises_step.
Qed.

Lemma asGraphFunction_not_unsupported self inputs outputs b :
  raises_only not_unsupported (asGraphFunction self inputs outputs b).
Proof. unfold asGraphFunction. destruct b; repeat raises_step. Qed.

Lemma with_IsolatedSession_not_unsupported {A} g keras
    (body : IsolatedSession E → M World A) :
  (∀ issn, raises_only not_unsupported (body issn)) →
  raises_only not_unsupported (with_IsolatedSession g keras body).
Proof.
  intros Hbody.
  unfold with_IsolatedSession, IsolatedSession_init, IsolatedSession_enter,
    IsolatedSession_exit.
  raises_step.
  { destruct g, keras; repeat raises_step. }
  raises_step.
  { destruct (keras_prev_sess _); repeat raises_step. }
  raises_step; [apply Hbody|].
  destruct (keras_prev_sess _); repeat raises_step.
Qed.

Lemma chain_not_unsupported issn idx fs prev :
  raises_only not_unsupported (chain issn idx fs prev).
Proof.
  revert idx prev. induction fs as [|[scope gfn] fs IH]; intros idx prev; simpl.
  - raises_step.
  - apply raises_only_bind; [apply raises_only_effect|]. intros _.
    apply raises_only_bind; [apply import_graph_function_not_unsupported|].
    intros [feeds fetches]. apply IH.
Qed.

Lemma first_input_info_not_unsupported fs :
  raises_only not_unsupported (first_input_info fs).
Proof.
  unfold first_input_info, item.
  apply with_IsolatedSession_not_unsupported. intros issn.
  apply raises_only_bind.
  { destruct (fs !! 0); repeat raises_step. }
  intros [scope first_gfn].
  apply raises_only_bind; [apply import_graph_function_not_unsupported|].
  intros [feeds fetches]. repeat raises_step.
Qed.

Lemma build_chain_not_unsupported fs info :
  raises_only not_unsupported (build_chain fs info).
Proof.
  unfold build_chain, last_item.
  apply with_IsolatedSession_not_unsupported. intros issn.
  apply raises_only_bind.
  { apply raises_only_mapM. intros [[dtype shape] name]. raises_step. }
  intros first_inputs.
  apply raises_only_bind; [apply chain_not_unsupported|]. intros prev_outputs.
  apply raises_only_bind.
  { destruct (last fs); repeat raises_step. }
  intros [scope last_gfn].
  apply raises_only_bind.
  { apply raises_only_mapM. intros [tnsr name]. raises_step. }
  intros last_outputs. apply asGraphFunction_not_unsupported.
Qed.

End SessionFacts.

(** ** Merging: the validation errors *)

Section MergeValidation.
Context {E : Engine}.
Implicit Types (f f_in f_out : unit_ (E := E)) (w : World).
Implicit Types (fs pre post : list (unit_ (E := E))).

Lemma linked_app_pair pre f_in f_out post :
  linked (pre ++ f_in :: f_out :: post)%list →
  arity_match f_in f_out ∧ single_input f_out.
Proof.
  induction pre as [|p pre IH]; simpl.
  - tauto.
  - destruct pre as [|p' pre]; simpl in *; tauto.
Qed.

Lemma offence_error_validation f_in f_out :
  validation_error (offence_error f_in f_out).
Proof. unfold offence_error. by destruct (Nat.eqb _ _). Qed.

Lemma offence_error_unsupported f_in f_out :
  ¬ (arity_match f_in f_out ∧ single_input f_out) →
  offence_error f_in f_out =
    NotImplementedError "Only support single input/output for intermediary layers"
  ↔ arity_match f_in f_out ∧ ¬ single_input f_out.
Proof.
  intros Hn. unfold offence_error, arity_match in *.
  destruct (Nat.eqb_spec (length (output_names f_in.2))
                         (length (input_names f_out.2))) as [Ha|Ha].
  - split; [|done]. intros _. tauto.
  - split; [done|]. tauto.
Qed.

(** C4: on a sequence that is empty or has an adjacent pair with an arity
    mismatch or with a right-hand unit that does not declare one input,
    [from_list] raises a validation error in the world it was called in:
    no session has been created and nothing has been imported.  The error
    is the assertion of line 209 on the empty sequence, and otherwise the
    one the first offending pair gives: the assertion of line 213 on an
    arity mismatch, the exception of line 216 when the arity matches. *)
Theorem from_list_validation_before_sessions fs w :
  violates fs →
  ∃ e, from_list fs w = (Raise e, w) ∧
       validation_error e ∧
       (fs = [] → e = AssertionError "must provide at least one function") ∧
       (∀ f_in f_out, first_offence fs f_in f_out → e = offence_error f_in f_out).
Proof.
  intros [->|(pre & f_in & f_out & post & -> & Hv)].
  - exists (AssertionError "must provide at least one function").
    split_and!; [done..|]. intros f_in f_out H. inversion H.
  - destruct (linked_or_offence (pre ++ f_in :: f_out :: post))
      as [Hl|(a & b & Ho)].
    { apply linked_app_pair in Hl. tauto. }
    exists (offence_error a b). split_and!.
    + by apply from_list_offence.
    + apply offence_error_validation.
    + intros Hnil. by destruct pre.
    + intros a' b' Ho'.
      by destruct (first_offence_unique _ _ _ _ _ Ho Ho') as [-> ->].
Qed.

(** C3, as the code has it: [from_list] on a sequence of two or more
    raises the exception of line 216 exactly when the first adjacent pair
    that fails a check has matching arity and a right-hand unit that does
    not declare one input.  The right-hand units are all the units but the
    first, the last one included. *)
Theorem from_list_unsupported_iff fs w :
  (2 ≤ length fs)%nat →
  raises_unsupported (from_list fs w) ↔
  ∃ f_in f_out, first_offence fs f_in f_out ∧
                arity_match f_in f_out ∧ ¬ single_input f_out.
Proof.
  intros Hlen. unfold raises_unsupported. split.
  - intros Hr. destruct (linked_or_offence fs) as [Hl|(a & b & Ho)].
    + exfalso. rewrite (from_list_linked fs w Hlen Hl) in Hr.
      destruct (bind _ _ w) as [r w'] eqn:Hrun. simpl in Hr. subst r.
      assert (H : raises_only not_unsupported
                    (let* info := first_input_info fs in
                     let* gfn := build_chain fs info in
                     ret (GraphFunctionValue gfn))).
      { raises_step; [apply first_input_info_not_unsupported|].
        raises_step; [apply build_chain_not_unsupported|]. raises_step. }
      apply (H _ _ _ Hrun).
    + exists a, b. split; [done|].
      rewrite (from_list_offence fs a b w Ho) in Hr. simpl in Hr.
      injection Hr as Hr. apply offence_error_unsupported; [|done].
      apply first_offence_split in Ho as (? & ? & _ & _ & Hn). done.
  - intros (a & b & Ho & Ha & Hs).
    rewrite (from_list_offence fs a b w Ho). simpl. f_equal.
    apply offence_error_unsupported; tauto.
Qed.

Lemma first_offence_adjacent fs f_in f_out :
  first_offence fs f_in f_out → (f_in, f_out) ∈ adjacent fs.
Proof.
  induction 1; rewrite adjacent_cons.
  - apply list_elem_of_here.
  - by apply list_elem_of_further.
Qed.

Lemma first_offence_tail fs f_in f_out :
  first_offence fs f_in f_out → f_out ∈ drop 1 fs.
Proof.
  induction 1; simpl in *.
  - apply list_elem_of_here.
  - by apply list_elem_of_further.
Qed.

Lemma linked_tail fs : linked fs → Forall single_input (drop 1 fs).
Proof.
  induction fs as [|f fs IH]; [constructor|].
  destruct fs as [|f' fs]; [constructor|].
  intros [[_ Hs] Hl]. simpl. constructor; [done|]. by apply IH.
Qed.

(** When the arities of all adjacent pairs match, the exception of line
    216 is raised exactly when some unit other than the first does not
    declare one input. *)
Lemma from_list_unsupported_matching_arities fs w :
  (2 ≤ length fs)%nat →
  Forall (λ p, arity_match p.1 p.2) (adjacent fs) →
  raises_unsupported (from_list fs w) ↔ Exists (λ f, ¬ single_input f) (drop 1 fs).
Proof.
  intros Hlen Har. rewrite (from_list_unsupported_iff fs w Hlen). split.
  - intros (a & b & Ho & _ & Hs). apply Exists_exists. exists b.
    split; [|done]. by apply (first_offence_tail fs a b).
  - intros Hex. destruct (linked_or_offence fs) as [Hl|(a & b & Ho)].
    + apply linked_tail in Hl. apply Exists_exists in Hex as (f & Hf & Hs).
      rewrite Forall_forall in Hl. destruct Hs. by apply Hl.
    + exists a, b. split; [done|].
      rewrite Forall_forall in Har.
      pose proof (Har _ (first_offence_adjacent _ _ _ Ho)) as Ha. simpl in Ha.
      split; [done|].
      apply first_offence_split in Ho as (? & ? & _ & _ & Hn). tauto.
Qed.

End MergeValidation.

(** ** Merging: the output names of the merged function *)

Section MergeOutputs.
Context {E : Engine}.
Implicit Types (self issn : IsolatedSession E) (gfn g : GraphFunction E).
Implicit Types (fs : list (unit_ (E := E))) (w : World).

Lemma mapM_length {A B} (f : A → M World B) (l : list A) w ys w' :
  mapM f l w = (Ok ys, w') → length ys = length l.
Proof. intros H%mapM_ok_inv. symmetry. by eapply Forall2_length. Qed.

Lemma mapM_ok_map {A B C} (f : A → M World B) (p : A → C) (q : B → C)
    (l : list A) w ys w' :
  (∀ x y w1 w2, f x w1 = (Ok y, w2) → q y = p x) →
  mapM f l w = (Ok ys, w') → map q ys = map p l.
Proof.
  intros Hf H%mapM_ok_inv.
  induction H as [|x y l ys (w1 & w2 & Hxy) _ IH]; simpl; [done|].
  f_equal; [by eapply Hf|done].
Qed.

Lemma scoped_names_lengths gfn (name : option string) :
  length (scoped_names gfn name).1.2 = length (input_names gfn) ∧
  length (scoped_names gfn name).2 = length (output_names gfn).
Proof.
  destruct name as [s|]; simpl; [|done].
  destruct (Nat.ltb 0 _); simpl; [|done]. by rewrite !length_map.
Qed.

(** An import resolves one handle per declared input and output name. *)
Lemma import_graph_function_lengths self gfn input_map name kargs w
    feeds fetches w' :
  import_graph_function self gfn input_map name kargs w = (Ok (feeds, fetches), w') →
  length feeds = length (input_names gfn) ∧
  length fetches = length (output_names gfn).
Proof.
  unfold import_graph_function. intros H.
  apply bind_ok_inv in H as ([] & w1 & _ & H).
  destruct (scoped_names_lengths gfn name) as [Hi Ho].
  destruct (scoped_names gfn name) as [[n ins] outs]. simpl in Hi, Ho.
  unfold import_and_resolve in H.
  apply bind_ok_inv in H as ([] & w2 & _ & H).
  apply bind_ok_inv in H as (feeds' & w3 & Hf & H).
  apply bind_ok_inv in H as (fetches' & w4 & Hg & H).
  injection H as <- <- _.
  apply mapM_length in Hf, Hg. by rewrite Hf, Hg.
Qed.

(** The loop leaves in [prev_outputs] one handle per output name of the
    last function. *)
Lemma chain_lengths issn idx fs prev w outs w' :
  chain issn idx fs prev w = (Ok outs, w') →
  match last fs with
  | Some (_, last_gfn) => length outs = length (output_names last_gfn)
  | None => outs = prev
  end.
Proof.
  revert idx prev w. induction fs as [|[scope gfn] fs IH]; intros idx prev w; simpl.
  - by intros [= <- _].
  - intros H. apply bind_ok_inv in H as ([] & w1 & _ & H).
    apply bind_ok_inv in H as ([feeds fetches] & w2 & Himp & H).
    apply import_graph_function_lengths in Himp as [_ Hlen].
    apply IH in H. rewrite last_cons.
    destruct (last fs) as [[scope' last_gfn]|]; [done|by subst].
Qed.






End MergeOutputs.

(** ** Keras models: the temporary directory *)

Section KerasFacts.
Context {E : Engine}.
Implicit Types (model : KerasModel) (w : World).

(** The exit of [from_keras] for an in-memory model once the model is
    saved: an exception of the load or of the capture leaves through
    line 191 and line 197 is not reached. *)
Lemma from_keras_in_memory_raise model (tmp : string) w w1 w2 e w3 :
  mkdtemp "kera-" w = (inr tmp, w1) →
  model_save model (PyPath.join tmp "model.h5") w1 = (inr tt, w2) →
  load_and_capture (PyPath.join tmp "model.h5") w2 = (Raise e, w3) →
  from_keras (InMemoryModel model) w = (Raise e, w3).
Proof.
  intros Hmk Hsave Hload. unfold from_keras.
  rewrite (bind_ok _ _ w (PyPath.join tmp "model.h5", true) w2).
  - by rewrite (bind_raise _ _ w2 e w3).
  - rewrite (bind_ok _ _ w tmp w1) by (unfold call; by rewrite Hmk).
    by rewrite (bind_ok _ _ w1 tt w2) by (unfold call; by rewrite Hsave).
Qed.

(** X18: when the load and the capture return, [from_keras] on an
    in-memory model returns the captured function and the directory
    [mkdtemp] made is the one removed; nothing else is done after the
    capture. *)
Lemma from_keras_in_memory_ok model (tmp : string) w w1 w2 g w3 :
  tmp ≠ "" →
  mkdtemp "kera-" w = (inr tmp, w1) →
  model_save model (PyPath.join tmp "model.h5") w1 = (inr tt, w2) →
  load_and_capture (PyPath.join tmp "model.h5") w2 = (Ok g, w3) →
  from_keras (InMemoryModel model) w = (Ok g, rmtree_ignore_errors tmp w3).
Proof.
  intros Htmp Hmk Hsave Hload. unfold from_keras.
  rewrite (bind_ok _ _ w (PyPath.join tmp "model.h5", true) w2).
  - rewrite (bind_ok _ _ w2 g w3) by done.
    by rewrite parent_join.
  - rewrite (bind_ok _ _ w tmp w1) by (unfold call; by rewrite Hmk).
    by rewrite (bind_ok _ _ w1 tt w2) by (unfold call; by rewrite Hsave).
Qed.

End KerasFacts.

(** ** The reference engine meets the assumptions made above *)

Module RefEngineFacts.
Import RefEngine.

Lemma jl_roundtrip (c : container) (path : string) (w0 w1 : world) :
  jl_dump c path w0 = (inr tt, w1) → jl_load path w1 = (inr c, w1).
Proof.
  simpl. unfold ref_jl_dump, ref_jl_load. intros [= <-]. simpl.
  by rewrite String.eqb_refl.
Qed.

Lemma graph_def_roundtrip (d : list byte) : FromString (SerializeToString d) = inr d.
Proof. done. Qed.

Lemma identity_named (t n : string) (w0 : world) (t' : string) (w1 : world) :
  tf_identity t n w0 = (inr t', w1) → id t' = n.
Proof. by intros [= <- _]. Qed.

Lemma validated_output_name (gr : nat) (t : string) (w0 : world) (s : string)
    (w1 : world) :
  validated_output gr t w0 = (inr s, w1) → s = id t.
Proof. by intros [= <- _]. Qed.

End RefEngineFacts.

(** The scope a blank label gets at stage 3, and a padded label. *)
Example stage_scope_examples :
  stage_scope 3 None = "GFN-BLK-3" ∧ stage_scope 3 (Some "  ") = "GFN-BLK-3" ∧
  stage_scope 3 (Some " b ") = " b " ∧
  stage_scope 1 (Some (String "160" "")) = "GFN-BLK-1".
Proof. by vm_compute. Qed.

(** C2: on the reference engine, [from_keras] on an in-memory model that
    saves and then fails to load raises the loader's exception, and the
    temporary directory it made, with the saved model in it, is still there
    when it has returned. *)
Theorem from_keras_load_failure_keeps_tempdir :
  let r := from_keras (InMemoryModel (E := RefEngine.engine)
                         RefEngine.custom_model) RefEngine.empty_world in
  r.1 = Raise (External (ExtExn "ValueError" "Unknown layer")) ∧
  RefEngine.dirs RefEngine.empty_world = [] ∧
  RefEngine.dirs r.2 = ["/tmp/kera-0"] ∧
  RefEngine.h5_files r.2 = [("/tmp/kera-0/model.h5", RefEngine.custom_model)].
Proof. by vm_compute. Qed.

(** The same call on a model that loads removes the directory. *)
Example from_keras_success_removes_tempdir :
  let r := from_keras (InMemoryModel (E := RefEngine.engine)
                         RefEngine.plain_model) RefEngine.empty_world in
  r.1 = Ok (RefEngine.gfn ["input_1"] ["output_1"]) ∧
  RefEngine.dirs r.2 = [] ∧
  RefEngine.h5_files r.2 = [].
Proof. by vm_compute. Qed.

(** ** The statements at concrete inputs *)

Section Instances.
Import RefEngine RefEngineFacts.

(** C3 fails on the code: two units with matching arity whose last unit
    declares two inputs are rejected with the exception of line 216,
    although the only unit before the last declares one input. *)
Lemma nonterminal_reading_fails :
  (2 ≤ length wide_link)%nat ∧
  Forall (λ p, arity_match p.1 p.2) (adjacent wide_link) ∧
  raises_unsupported (from_list wide_link empty_world) ∧
  ¬ nonterminal_reading wide_link empty_world.
Proof.
  assert (Hr : raises_unsupported (from_list wide_link empty_world))
    by reflexivity.
  split_and!; [simpl; lia| |done|].
  - repeat constructor.
  - intros [H _]. destruct (H Hr) as (i & f & Hi & Hf & Hs).
    simpl in Hi. assert (i = 0) as -> by lia.
    injection Hf as <-. by apply Hs.
Qed.

(** The first unit is not checked: two inputs there are accepted. *)
Example wide_first_accepted :
  (from_list wide_first empty_world).1 =
  Ok (GraphFunctionValue (gfn ["x1"; "x2"] ["z"])).
Proof. by vm_compute. Qed.

(** [from_list_unsupported_iff] on the two units of [wide_link]. *)
Lemma from_list_unsupported_iff_witness :
  raises_unsupported (from_list wide_link empty_world) ↔
  ∃ f_in f_out, first_offence wide_link f_in f_out ∧
                arity_match f_in f_out ∧ ¬ single_input f_out.
Proof. apply (from_list_unsupported_iff wide_link empty_world). simpl. lia. Defined.

(** [from_list_validation_before_sessions] on the two units of [mismatch]. *)
Lemma from_list_validation_before_sessions_witness :
  ∃ e, from_list mismatch empty_world = (Raise e, empty_world) ∧
       validation_error e ∧
       (mismatch = [] → e = AssertionError "must provide at least one function") ∧
       (∀ f_in f_out, first_offence mismatch f_in f_out →
                      e = offence_error f_in f_out).
Proof.
  apply (from_list_validation_before_sessions mismatch empty_world).
  right. exists [], (Some "a", gfn ["x"] ["y1"; "y2"]), (None, gfn ["y"] ["z"]), [].
  split; [reflexivity|]. left. unfold arity_match. simpl. lia.
Defined.

(** The error of that sequence and the untouched trace. *)
Example mismatch_error :
  from_list mismatch empty_world =
  (Raise (AssertionError
            "graph function link a -> None require compatible layers"),
   empty_world) ∧
  trace (from_list mismatch empty_world).2 = [].
Proof. by vm_compute. Qed.

(** [dump_from_file_roundtrip] on the reference engine, for the path
    "model". *)
Lemma dump_from_file_roundtrip_witness :
  ∃ g', from_file (dump_path "model") (dump (gfn ["x"] ["y"]) "model" empty_world).2 =
          (Ok g', (dump (gfn ["x"] ["y"]) "model" empty_world).2) ∧
        SerializeToString (graph_def g') =
          SerializeToString (graph_def (gfn ["x"] ["y"])) ∧
        input_names g' = ["x"] ∧
        output_names g' = ["y"].
Proof.
  apply (dump_from_file_roundtrip (gfn ["x"] ["y"]) "model" empty_world
           (dump (gfn ["x"] ["y"]) "model" empty_world).2
           jl_roundtrip graph_def_roundtrip).
  reflexivity.
Defined.

(** The file is under the path [dump] wrote to, not under the one it was
    given. *)
Example from_file_unsuffixed_path :
  (from_file "model" (dump (gfn ["x"] ["y"]) "model" empty_world).2).1 =
  Raise (External (ExtExn "IOError" "No such file or directory")).
Proof. by vm_compute. Qed.

(** [import_graph_function_checks_input_map] with an undeclared and with a
    declared key. *)
Lemma import_graph_function_checks_input_map_witness :
  import_graph_function issn0 (gfn ["x"] ["y"]) (Some {["q" := "t"]})
    (Some "a") ∅ empty_world =
  (Raise (AssertionError "cannot locate provided input elements in the graph"),
   empty_world)
  ∧
  check_input_map (gfn ["x"] ["y"]) (Some {["x" := "t"]}) empty_world =
  (Ok tt, empty_world).
Proof.
  split.
  - apply (proj1 (import_graph_function_checks_input_map (E := engine) issn0
                    (gfn ["x"] ["y"]) {["q" := "t"]} (Some "a") ∅ empty_world)).
    exists "q". split.
    + apply elem_of_dom. exists "t". reflexivity.
    + intros H. apply list_elem_of_In in H. simpl in H.
      destruct H as [H|[]]. discriminate H.
  - apply (proj2 (import_graph_function_checks_input_map (E := engine) issn0
                    (gfn ["x"] ["y"]) {["x" := "t"]} (Some "a") ∅ empty_world)).
    intros k Hk. apply elem_of_dom in Hk as [v Hk].
    apply lookup_singleton_Some in Hk as [<- _]. simpl. left.
Defined.

(** [from_file_requires_fields] on a file without input names. *)
Lemma from_file_requires_fields_witness :
  from_file "g.jl" world_no_inputs = (Raise (AssertionError ""), world_no_inputs).
Proof.
  apply (proj1 (from_file_requires_fields (E := engine) "g.jl" no_inputs
                  world_no_inputs world_no_inputs eq_refl)).
  right. left. reflexivity.
Defined.

(** [import_graph_function_name_stripped] for a blank and for a padded
    name. *)
Lemma import_graph_function_name_stripped_witness :
  import_graph_function issn0 (gfn ["x"] ["y"]) None (Some "  ") ∅ empty_world =
  import_graph_function issn0 (gfn ["x"] ["y"]) None (Some "") ∅ empty_world
  ∧
  import_graph_function issn0 (gfn ["x"] ["y"]) None (Some " a ") ∅ empty_world =
  import_graph_function issn0 (gfn ["x"] ["y"]) None (Some "a") ∅ empty_world.
Proof.
  split.
  - apply (proj1 (import_graph_function_name_stripped (E := engine) issn0
                    (gfn ["x"] ["y"]) None ∅ empty_world) "  ").
    reflexivity.
  - apply (proj2 (proj2 (proj2 (import_graph_function_name_stripped (E := engine)
                    issn0 (gfn ["x"] ["y"]) None ∅ empty_world))) " a ").
    reflexivity.
Defined.

(** The names looked up under a blank name, under [None] and under a padded
    name, on the reference engine, in which every lookup succeeds whatever
    was imported. *)
Example import_blank_and_padded :
  (import_graph_function issn0 (gfn ["x"] ["y"]) None (Some "  ") ∅ empty_world).1 =
    Ok (["x"], ["y"]) ∧
  (import_graph_function issn0 (gfn ["x"] ["y"]) None None ∅ empty_world).1 =
    Ok (["x"], ["y"]) ∧
  (import_graph_function issn0 (gfn ["x"] ["y"]) None (Some " a ") ∅ empty_world).1 =
    Ok (["a/x"], ["a/y"]).
Proof. by vm_compute. Qed.

End Instances.

(** ** Computations that leave an observation of the world as it was *)

Section KeepsFacts.
Context {E : Engine} {X : Type} (obs : World → X).

Lemma call_run {A} (op : World → (ext_exn + A) * World) w :
  call op w =
  (match (op w).1 with inr a => Ok a | inl e => Raise (External e) end, (op w).2).
Proof. unfold call. by destruct (op w) as [[e|a] w']. Qed.

Lemma keeps_ret {A} (a : A) : keeps obs (ret a).
Proof. by intros w. Qed.

Lemma keeps_raise {A} (e : exn) : keeps obs (@raise World A e).
Proof. by intros w. Qed.

Lemma keeps_call {A} (op : World → (ext_exn + A) * World) :
  frame obs op → keeps obs (call op).
Proof. intros H w. rewrite call_run. apply H. Qed.

Lemma keeps_effect (f : World → World) :
  (∀ w, obs (f w) = obs w) → keeps obs (effect f).
Proof. intros H w. apply H. Qed.

Lemma keeps_assert (cond : bool) (msg : string) : keeps obs (assert cond msg).
Proof. by destruct cond. Qed.

Lemma keeps_bind {A B} (c : M World A) (k : A → M World B) :
  keeps obs c → (∀ a, keeps obs (k a)) → keeps obs (bind c k).
Proof.
  intros Hc Hk w. unfold bind. specialize (Hc w).
  destruct (c w) as [[a|e] w1]; simpl in *; [|done].
  by rewrite Hk.
Qed.

Lemma keeps_finally {A} (body : M World A) (cleanup : M World unit) :
  keeps obs body → keeps obs cleanup → keeps obs (finally body cleanup).
Proof.
  intros Hb Hc w. unfold finally. specialize (Hb w).
  destruct (body w) as [r w1]. specialize (Hc w1).
  destruct (cleanup w1) as [[[]|e] w2]; simpl in *; congruence.
Qed.

Lemma keeps_mapM {A B} (f : A → M World B) (l : list A) :
  (∀ x, keeps obs (f x)) → keeps obs (mapM f l).
Proof.
  intros Hf. induction l as [|x l IH]; simpl.
  - apply keeps_ret.
  - apply keeps_bind; [done|]. intros y.
    apply keeps_bind; [done|]. intros ys. apply keeps_ret.
Qed.

End KeepsFacts.

(** ** Sessions: what a [with IsolatedSession(...)] block restores *)

Section SessionScope.
Context {E : Engine}.
Implicit Types (mgr issn : IsolatedSession E) (w : World).

Lemma init_keeps {X} (obs : World → X) g keras :
  frame obs tf_Graph → (∀ g', frame obs (tf_Session g')) → frame obs K_get_session →
  keeps obs (IsolatedSession_init g keras).
Proof.
  intros HG HS HK. unfold IsolatedSession_init.
  apply keeps_bind; [destruct g; [apply keeps_ret|by apply keeps_call]|].
  intros g'. apply keeps_bind; [by apply keeps_call|]. intros s.
  apply keeps_bind; [|intros prev; apply keeps_ret].
  destruct keras; [|apply keeps_ret].
  apply keeps_bind; [by apply keeps_call|]. intros k. apply keeps_ret.
Qed.

(** The manager [__init__] makes holds the Keras session of the moment
    when [keras] is set, and none otherwise. *)
Lemma init_prev_sess (current : World → Session) g keras w mgr w1 :
  keras_registry current →
  IsolatedSession_init g keras w = (Ok mgr, w1) →
  keras_prev_sess mgr = if keras then Some (current w) else None.
Proof.
  intros R H. unfold IsolatedSession_init in H.
  apply bind_ok_inv in H as (g' & wa & Hg & H).
  apply bind_ok_inv in H as (s & wb & Hs & H).
  apply bind_ok_inv in H as (prev & wc & Hp & H).
  injection H as <- _. simpl. destruct keras.
  - apply bind_ok_inv in Hp as (k & wd & Hk & Hp). injection Hp as <- _.
    rewrite call_run in Hk.
    destruct (registry_get current R wb) as [_ Hget].
    destruct (K_get_session wb).1 as [e|k'] eqn:Hr; [done|].
    injection Hk as <- _. rewrite (Hget k' eq_refl). f_equal.
    assert (Hwa : current wa = current w).
    { destruct g as [g0|].
      - by injection Hg as _ <-.
      - rewrite call_run in Hg. injection Hg as _ <-. apply (registry_Graph current R). }
    rewrite call_run in Hs. injection Hs as _ <-.
    by rewrite (registry_Session current R).
  - by injection Hp as <- _.
Qed.

Lemma set_session_ok (current : World → Session) s w :
  keras_registry current →
  call (K_set_session s) w = (Ok tt, (K_set_session s w).2).
Proof.
  intros R. rewrite call_run. by destruct (registry_set current R s w) as [-> _].
Qed.

Lemma enter_keeps_current (current : World → Session) mgr w e w1 :
  keras_registry current →
  IsolatedSession_enter mgr w = (Raise e, w1) → current w1 = current w.
Proof.
  intros R H. unfold IsolatedSession_enter in H.
  apply bind_raise_inv in H as [H|([] & wa & Ha & H)].
  { rewrite call_run in H. injection H as _ <-. apply (registry_as_default current R). }
  rewrite call_run in Ha. injection Ha as _ <-.
  apply bind_raise_inv in H as [H|([] & wb & Hb & H)].
  { rewrite call_run in H. injection H as _ <-.
    by rewrite (registry_enter current R), (registry_as_default current R). }
  apply bind_raise_inv in H as [H|([] & wc & Hc & H)]; [|done].
  destruct (keras_prev_sess mgr); [|done].
  by rewrite (set_session_ok current _ _ R) in H.
Qed.

Lemma exit_sets_current (current : World → Session) mgr prev w :
  keras_registry current → keras_prev_sess mgr = Some prev →
  current (IsolatedSession_exit mgr w).2 = prev.
Proof.
  intros R Hprev. unfold IsolatedSession_exit. rewrite Hprev.
  rewrite (bind_ok _ _ w tt _ (set_session_ok current prev w R)).
  rewrite call_run. simpl. rewrite (registry_exit current R).
  by destruct (registry_set current R prev w) as [_ ->].
Qed.

(** X1: a block [with IsolatedSession(graph, keras=True)] leaves Keras with
    the session it held before the block, whatever the body does to it and
    whether the construction, the entry, the body or the exit return or
    raise. *)
Theorem with_IsolatedSession_restores_keras_session
    (current : World → Session) {A} g (body : IsolatedSession E → M World A) w :
  keras_registry current →
  current (with_IsolatedSession g true body w).2 = current w.
Proof.
  intros R. unfold with_IsolatedSession.
  pose proof (init_keeps current g true (registry_Graph current R)
                (registry_Session current R)
                (λ w0, proj1 (registry_get current R w0)) w) as Hinit.
  unfold bind at 1.
  destruct (IsolatedSession_init g true w) as [[mgr|e] w1] eqn:Hi; [|done].
  simpl in Hinit.
  pose proof (init_prev_sess current g true w mgr w1 R Hi) as Hprev.
  unfold bind.
  destruct (IsolatedSession_enter mgr w1) as [[issn|e] w2] eqn:He.
  - unfold finally. destruct (body issn w2) as [r w3].
    pose proof (exit_sets_current current mgr (current w) w3 R Hprev) as Hx.
    by destruct (IsolatedSession_exit mgr w3) as [[[]|e] w4].
  - simpl. by rewrite (enter_keeps_current current mgr w1 e w2 R He).
Qed.

End SessionScope.

(** ** Sessions: the stack of default sessions *)

Section StackFacts.
Context {E : Engine} (depth : World → nat).
Implicit Types (mgr issn self : IsolatedSession E) (gfn : GraphFunction E).
Implicit Types (fs : list (unit_ (E := E))) (w : World).

Lemma init_prev_sess_none g w mgr w1 :
  IsolatedSession_init g false w = (Ok mgr, w1) → keras_prev_sess mgr = None.
Proof.
  intros H. unfold IsolatedSession_init in H.
  apply bind_ok_inv in H as (g' & wa & _ & H).
  apply bind_ok_inv in H as (s & wb & _ & H).
  apply bind_ok_inv in H as (prev & wc & Hp & H).
  injection H as <- _. by injection Hp as <- _.
Qed.

Lemma call_total {A} (op : World → (ext_exn + A) * World) w :
  total op → ∃ a, call op w = (Ok a, (op w).2).
Proof. intros H. destruct (H w) as [a Ha]. exists a. by rewrite call_run, Ha. Qed.

Lemma enter_depth mgr w :
  session_stack depth →
  (keras_prev_sess mgr ≠ None → ∀ s, total (K_set_session s)) →
  depth (IsolatedSession_enter mgr w).2 =
  match (IsolatedSession_enter mgr w).1 with
  | Ok _ => S (depth w)
  | Raise _ => depth w
  end.
Proof.
  intros St Hset. unfold IsolatedSession_enter, bind.
  rewrite call_run.
  pose proof (stack_as_default depth St (sess mgr) w) as Ha.
  destruct (sess_as_default (sess mgr) w) as [[e|[]] wa]; simpl in *; [done|].
  rewrite call_run.
  pose proof (stack_enter depth St (sess mgr) wa) as Hb.
  destruct (sess_enter (sess mgr) wa) as [[e|[]] wb]; simpl in *; [congruence|].
  destruct (keras_prev_sess mgr) as [prev|]; simpl; [|congruence].
  destruct (call_total (K_set_session (sess mgr)) wb) as [[] ->].
  { by apply Hset. }
  simpl. rewrite (stack_set_session depth St). congruence.
Qed.

Lemma exit_depth mgr w :
  session_stack depth →
  (keras_prev_sess mgr ≠ None → ∀ s, total (K_set_session s)) →
  depth (IsolatedSession_exit mgr w).2 = pred (depth w).
Proof.
  intros St Hset. unfold IsolatedSession_exit, bind.
  destruct (keras_prev_sess mgr) as [prev|]; simpl.
  - destruct (call_total (K_set_session prev) w) as [[] ->].
    { by apply Hset. }
    rewrite call_run. simpl.
    by rewrite (stack_exit depth St), (stack_set_session depth St).
  - rewrite call_run. simpl. apply (stack_exit depth St).
Qed.

Lemma with_IsolatedSession_keeps_depth {A} g keras
    (body : IsolatedSession E → M World A) :
  session_stack depth →
  (keras = true → ∀ s, total (K_set_session s)) →
  (∀ issn, keeps depth (body issn)) →
  keeps depth (with_IsolatedSession g keras body).
Proof.
  intros St Hset Hbody w. unfold with_IsolatedSession.
  pose proof (init_keeps depth g keras (stack_Graph depth St)
                (stack_Session depth St) (stack_get_session depth St) w) as Hinit.
  unfold bind at 1.
  destruct (IsolatedSession_init g keras w) as [[mgr|e] w1] eqn:Hi; [|done].
  simpl in Hinit.
  assert (Hmgr : keras_prev_sess mgr ≠ None → ∀ s, total (K_set_session s)).
  { intros Hn. apply Hset. destruct keras; [done|].
    by rewrite (init_prev_sess_none g w mgr w1 Hi) in Hn. }
  pose proof (enter_depth mgr w1 St Hmgr) as He.
  unfold bind.
  destruct (IsolatedSession_enter mgr w1) as [[issn|e] w2]; simpl in He.
  - unfold finally. pose proof (Hbody issn w2) as Hb.
    destruct (body issn w2) as [r w3]. simpl in Hb.
    pose proof (exit_depth mgr w3 St Hmgr) as Hx.
    destruct (IsolatedSession_exit mgr w3) as [[[]|e] w4]; simpl in *;
      rewrite Hx, Hb, He, Hinit; done.
  - simpl. congruence.
Qed.

Lemma import_graph_function_keeps self gfn input_map name kargs :
  session_stack depth →
  keeps depth (import_graph_function self gfn input_map name kargs).
Proof.
  intros St. unfold import_graph_function, check_input_map, import_and_resolve.
  destruct (scoped_names gfn name) as [[n ins] outs].
  apply keeps_bind; [destruct input_map; [apply keeps_assert|apply keeps_ret]|].
  intros _. apply keeps_bind; [apply keeps_call, (stack_import depth St)|].
  intros _. apply keeps_bind.
  { apply keeps_mapM. intros x. apply keeps_call, (stack_get_tensor depth St). }
  intros feeds. apply keeps_bind; [|intros fetches; apply keeps_ret].
  apply keeps_mapM. intros x. apply keeps_call, (stack_get_tensor depth St).
Qed.

Lemma asGraphFunction_keeps self inputs outputs b :
  session_stack depth → keeps depth (asGraphFunction self inputs outputs b).
Proof.
  intros St. unfold asGraphFunction. apply keeps_bind.
  { destruct b; apply keeps_call;
      [apply (stack_strip depth St)|apply (stack_as_graph_def depth St)]. }
  intros gdef. apply keeps_bind.
  { apply keeps_mapM. intros x. apply keeps_call, (stack_validated_input depth St). }
  intros ins. apply keeps_bind; [|intros outs; apply keeps_ret].
  apply keeps_mapM. intros x. apply keeps_call, (stack_validated_output depth St).
Qed.

Lemma chain_keeps issn idx fs prev :
  session_stack depth → keeps depth (chain issn idx fs prev).
Proof.
  intros St. revert idx prev.
  induction fs as [|[scope gfn] fs IH]; intros idx prev; simpl.
  - apply keeps_ret.
  - apply keeps_bind; [apply keeps_effect, (stack_logger depth St)|]. intros _.
    apply keeps_bind; [by apply import_graph_function_keeps|].
    intros [feeds fetches]. apply IH.
Qed.

Lemma check_links_keeps (pairs : list (unit_ * unit_)) : keeps depth (check_links pairs).
Proof.
  induction pairs as [|[[s1 g1] [s2 g2]] pairs IH]; simpl; [apply keeps_ret|].
  apply keeps_bind; [|by intros _].
  unfold check_link. apply keeps_bind; [apply keeps_assert|]. intros _.
  destruct (negb _); [apply keeps_raise|apply keeps_ret].
Qed.

Lemma from_list_keeps fs : session_stack depth → keeps depth (from_list fs).
Proof.
  intros St. unfold from_list.
  apply keeps_bind; [apply keeps_assert|]. intros _.
  destruct (Nat.eqb 1 (length fs)).
  { apply keeps_bind; [|intros [scope gfn]; apply keeps_ret].
    unfold item. destruct (fs !! 0); [apply keeps_ret|apply keeps_raise]. }
  apply keeps_bind; [apply check_links_keeps|]. intros _.
  apply keeps_bind.
  { unfold first_input_info.
    apply with_IsolatedSession_keeps_depth; [done..|]. intros issn.
    apply keeps_bind.
    { unfold item. destruct (fs !! 0); [apply keeps_ret|apply keeps_raise]. }
    intros [scope first_gfn].
    apply keeps_bind; [by apply import_graph_function_keeps|].
    intros [feeds fetches]. apply keeps_mapM. intros tnsr.
    apply keeps_bind; [apply keeps_call, (stack_op_name depth St)|].
    intros name. apply keeps_ret. }
  intros info. apply keeps_bind; [|intros gfn; apply keeps_ret].
  unfold build_chain.
  apply with_IsolatedSession_keeps_depth; [done..|]. intros issn.
  apply keeps_bind.
  { apply keeps_mapM. intros [[dtype shape] name].
    apply keeps_call, (stack_placeholder depth St). }
  intros first_inputs. apply keeps_bind; [by apply chain_keeps|].
  intros prev_outputs. apply keeps_bind.
  { unfold last_item. destruct (last fs); [apply keeps_ret|apply keeps_raise]. }
  intros [scope last_gfn]. apply keeps_bind.
  { apply keeps_mapM. intros [tnsr name]. apply keeps_call, (stack_identity depth St). }
  intros last_outputs. by apply asGraphFunction_keeps.
Qed.

Lemma from_keras_keeps arg :
  session_stack depth → (∀ s, total (K_set_session s)) →
  keeps depth (from_keras arg).
Proof.
  intros St Hset. unfold from_keras. apply keeps_bind.
  { destruct arg as [model|path|str_of]; [|apply keeps_ret..].
    apply keeps_bind; [apply keeps_call, (stack_mkdtemp depth St)|]. intros tmp.
    apply keeps_bind; [apply keeps_call, (stack_model_save depth St)|].
    intros _. apply keeps_ret. }
  intros [model_path is_temp_model]. apply keeps_bind.
  { unfold load_and_capture.
    apply with_IsolatedSession_keeps_depth; [done|done|]. intros issn.
    apply keeps_bind; [apply keeps_call, (stack_learning_phase depth St)|].
    intros _. apply keeps_bind; [apply keeps_call, (stack_load_model depth St)|].
    intros model. by apply asGraphFunction_keeps. }
  intros gfn. apply keeps_bind; [|intros _; apply keeps_ret].
  destruct is_temp_model; [|apply keeps_ret].
  apply keeps_effect, (stack_rmtree depth St).
Qed.

(** X2: a block [with IsolatedSession(graph, keras)] whose body leaves the
    stack of default sessions as it found it leaves the stack as it was
    before the block, on every exit: a session that was entered is left
    again also when the body raises.  With [keras] set this needs
    [K.set_session] to return. *)
Theorem with_IsolatedSession_keeps_session_stack {A} g keras
    (body : IsolatedSession E → M World A) w :
  session_stack depth →
  (keras = true → ∀ s, total (K_set_session s)) →
  (∀ issn w0, depth (body issn w0).2 = depth w0) →
  depth (with_IsolatedSession g keras body w).2 = depth w.
Proof. intros St Hset Hbody. by apply with_IsolatedSession_keeps_depth. Qed.

(** X3: [from_list] leaves the stack of default sessions as it found it,
    whether it returns the merged function or raises, in the validation
    or in one of its two sessions. *)
Theorem from_list_keeps_session_stack fs w :
  session_stack depth → depth (from_list fs w).2 = depth w.
Proof. intros St. by apply from_list_keeps. Qed.

(** X4: [from_keras] leaves the stack of default sessions as it found it,
    whether it returns or raises, when [K.set_session] returns. *)
Theorem from_keras_keeps_session_stack arg w :
  session_stack depth → (∀ s, total (K_set_session s)) →
  depth (from_keras arg w).2 = depth w.
Proof. intros St Hset. by apply from_keras_keeps. Qed.

End StackFacts.

(** ** Export and import: the handles and the names *)

Section ExportImportFacts.
Context {E : Engine}.
Implicit Types (self issn : IsolatedSession E) (gfn g : GraphFunction E).
Implicit Types (w : World) (kargs : gmap string Kwarg).

(** X5: a graph function that [asGraphFunction] returns has one input name
    for each input element and one output name for each output element, in
    their order, each the name [validated_input], respectively
    [validated_output], returned for that element, and its graph definition
    is the one [strip_and_freeze_until] returned for the outputs, or the
    one of the whole graph when [strip_and_freeze] is off. *)
Theorem asGraphFunction_validated_names self inputs outputs b w g w' :
  asGraphFunction self inputs outputs b w = (Ok g, w') →
  Forall2 (λ elem name, ∃ w1 w2,
             validated_input (graph self) elem w1 = (inr name, w2))
          inputs (input_names g) ∧
  Forall2 (λ elem name, ∃ w1 w2,
             validated_output (graph self) elem w1 = (inr name, w2))
          outputs (output_names g) ∧
  ∃ w1, (if b then strip_and_freeze_until outputs (graph self) (sess self) w
         else graph_as_graph_def (graph self) w) = (inr (graph_def g), w1).
Proof.
  intros H. unfold asGraphFunction in H.
  apply bind_ok_inv in H as (gdef & w1 & Hg & H).
  apply bind_ok_inv in H as (ins & w2 & Hi & H).
  apply bind_ok_inv in H as (outs & w3 & Ho & H).
  injection H as <- _. simpl. split_and!.
  - apply mapM_ok_inv in Hi. eapply Forall2_impl; [exact Hi|]. simpl.
    intros x y (wa & wb & Hc%call_ok_inv). by exists wa, wb.
  - apply mapM_ok_inv in Ho. eapply Forall2_impl; [exact Ho|]. simpl.
    intros x y (wa & wb & Hc%call_ok_inv). by exists wa, wb.
  - exists w1. destruct b; by apply call_ok_inv in Hg.
Qed.

(** X6: a [return_elements] keyword argument given to
    [import_graph_function] has no effect: the call is the one without
    it. *)
Theorem import_graph_function_drops_return_elements
    self gfn (input_map : option (gmap string Tensor)) (name : option string)
    kargs (v : Kwarg) w :
  import_graph_function self gfn input_map name (<["return_elements" := v]> kargs) w =
  import_graph_function self gfn input_map name kargs w.
Proof. unfold import_graph_function. by rewrite delete_insert_eq. Qed.

Lemma import_graph_function_resolved (name_of : Tensor → string)
    self gfn (input_map : option (gmap string Tensor)) (name : option string)
    kargs w feeds fetches w' :
  (∀ gr n w0 t w1, get_tensor gr n w0 = (inr t, w1) → name_of t = n) →
  import_graph_function self gfn input_map name kargs w = (Ok (feeds, fetches), w') →
  let scope op_name :=
    match name with
    | Some s => if PyStr.only_whitespace s then op_name
                else PyStr.strip s ++ "/" ++ op_name
    | None => op_name
    end in
  map name_of feeds = map scope (input_names gfn) ∧
  map name_of fetches = map scope (output_names gfn).
Proof.
  intros Hget H scope. unfold import_graph_function in H.
  apply bind_ok_inv in H as ([] & w1 & _ & H).
  assert (Hs : scoped_names gfn name =
               ((scoped_names gfn name).1.1,
                map scope (input_names gfn), map scope (output_names gfn))).
  { unfold scope. destruct name as [s|]; [|simpl; by rewrite !List.map_id].
    destruct (PyStr.only_whitespace s) eqn:Hw.
    - destruct (scoped_names_absent gfn (Some s) Hw) as [-> _].
      by rewrite !List.map_id.
    - by rewrite (scoped_names_label gfn s Hw). }
  rewrite Hs in H. unfold import_and_resolve in H.
  apply bind_ok_inv in H as ([] & w2 & _ & H).
  apply bind_ok_inv in H as (feeds' & w3 & Hf & H).
  apply bind_ok_inv in H as (fetches' & w4 & Hg & H).
  injection H as <- <- _. split.
  - rewrite <- (List.map_id (map scope (input_names gfn))).
    apply (mapM_ok_map _ id name_of _ _ _ _) with (2 := Hf).
    intros n t wa wb Hc%call_ok_inv. by apply Hget in Hc.
  - rewrite <- (List.map_id (map scope (output_names gfn))).
    apply (mapM_ok_map _ id name_of _ _ _ _) with (2 := Hg).
    intros n t wa wb Hc%call_ok_inv. by apply Hget in Hc.
Qed.

(** X7: when a tensor looked up by name carries that name, the handles
    [import_graph_function] returns are, in the order of the declared
    names, those of the declared input and output names when [name] is
    [None] or blank, and those of the names behind the stripped [name] and
    "/" otherwise. *)
Theorem import_graph_function_handle_names (name_of : Tensor → string)
    self gfn (input_map : option (gmap string Tensor)) (name : option string)
    kargs w feeds fetches w' :
  (∀ gr n w0 t w1, get_tensor gr n w0 = (inr t, w1) → name_of t = n) →
  import_graph_function self gfn input_map name kargs w = (Ok (feeds, fetches), w') →
  let scope op_name :=
    match name with
    | Some s => if PyStr.only_whitespace s then op_name
                else PyStr.strip s ++ "/" ++ op_name
    | None => op_name
    end in
  map name_of feeds = map scope (input_names gfn) ∧
  map name_of fetches = map scope (output_names gfn).
Proof. apply import_graph_function_resolved. Qed.

End ExportImportFacts.

(** ** Merging: the rewiring maps and the scopes *)

Section RewiringFacts.
Context {E : Engine}.
Implicit Types (gfn : GraphFunction E) (w : World).

Lemma foldl_insert_dom {V} (ks : list string) (vs : list V) (m : gmap string V) :
  dom (foldl (λ m kv, <[kv.1 := kv.2]> m) m (zip ks vs)) ⊆
  dom m ∪ list_to_set (C := gset string) ks.
Proof.
  revert vs m. induction ks as [|k ks IH]; intros [|v vs] m; simpl;
    [apply union_subseteq_l..|].
  etrans; [apply IH|]. intros x.
  rewrite dom_insert, !elem_of_union, elem_of_singleton. tauto.
Qed.

Lemma dict_zip_dom {V} (ks : list string) (vs : list V) :
  dom (dict_zip ks vs) ⊆ list_to_set (C := gset string) ks.
Proof.
  unfold dict_zip. etrans; [apply foldl_insert_dom|]. intros x.
  rewrite dom_empty, elem_of_union, elem_of_empty. tauto.
Qed.

Lemma check_input_map_dict_zip gfn (prev_outputs : list Tensor) w :
  check_input_map gfn (Some (dict_zip (input_names gfn) prev_outputs)) w = (Ok tt, w).
Proof.
  unfold check_input_map. rewrite bool_decide_eq_true_2; [done|].
  apply dict_zip_dom.
Qed.

Lemma foldl_insert_notin {V} (l : list (string * V)) (m : gmap string V) k :
  k ∉ l.*1 → foldl (λ m kv, <[kv.1 := kv.2]> m) m l !! k = m !! k.
Proof.
  revert m. induction l as [|[k0 v0] l IH]; intros m Hk; simpl; [done|].
  apply not_elem_of_cons in Hk as [Hne Hk].
  rewrite IH by done. by apply lookup_insert_ne.
Qed.

Lemma foldl_insert_positional {V} (ks : list string) (vs : list V)
    (m : gmap string V) i k v :
  NoDup ks → ks !! i = Some k → vs !! i = Some v →
  foldl (λ m kv, <[kv.1 := kv.2]> m) m (zip ks vs) !! k = Some v.
Proof.
  revert vs m i. induction ks as [|k0 ks IH]; intros [|v0 vs] m i Hnd Hk Hv;
    try done.
  apply NoDup_cons in Hnd as [Hk0 Hnd]. destruct i as [|i]; simpl in *.
  - injection Hk as ->. injection Hv as ->.
    rewrite foldl_insert_notin; [apply lookup_insert_eq|].
    intros Hin. apply Hk0. apply list_elem_of_fmap in Hin as ([k' v'] & -> & Hin).
    by apply elem_of_zip_l in Hin.
  - by apply (IH vs _ i).
Qed.

(** X8: the rewiring map of line 239 is positional: when the input names
    are distinct, it sends the [i]-th input name to the [i]-th previous
    output, and it has no key that is not an input name, however many
    previous outputs there are. *)
Theorem dict_zip_positional {V} (ks : list string) (vs : list V) :
  NoDup ks →
  (∀ i k v, ks !! i = Some k → vs !! i = Some v → dict_zip ks vs !! k = Some v) ∧
  (∀ k, k ∈ dom (dict_zip ks vs) → k ∈ ks).
Proof.
  intros Hnd. split.
  - intros i k v Hk Hv. by apply (foldl_insert_positional ks vs ∅ i).
  - intros k Hk. apply dict_zip_dom in Hk. by apply elem_of_list_to_set in Hk.
Qed.

(** X9: the rewiring maps [from_list] builds always pass the check
    [import_graph_function] makes on the keys of an input map, so that the
    import of a stage never raises the assertion of line 100. *)
Theorem from_list_input_maps_pass_check
    (self : IsolatedSession E) gfn (prev_outputs : list Tensor)
    (name : option string) (kargs : gmap string Kwarg) w :
  check_input_map gfn (Some (dict_zip (input_names gfn) prev_outputs)) w = (Ok tt, w) ∧
  ∀ w', import_graph_function self gfn
          (Some (dict_zip (input_names gfn) prev_outputs)) name kargs w ≠
        (Raise (AssertionError
                  "cannot locate provided input elements in the graph"), w').
Proof.
  split; [apply check_input_map_dict_zip|].
  intros w' H. unfold import_graph_function in H.
  rewrite (bind_ok _ _ w tt w (check_input_map_dict_zip gfn prev_outputs w)) in H.
  destruct (scoped_names gfn name) as [[n ins] outs].
  assert (Hr : raises_only external
                 (import_and_resolve self gfn
                    (Some (dict_zip (input_names gfn) prev_outputs)) n ins outs
                    (delete "return_elements" kargs))).
  { unfold import_and_resolve. repeat raises_step. }
  apply (Hr _ _ _ H).
Qed.

Lemma append_inj_r (p a b : string) : p ++ a = p ++ b → a = b.
Proof.
  induction p as [|c p IH]; [done|]. rewrite !append_cons. intros [= H]. by apply IH.
Qed.

Lemma to_uint_nonnil (n : nat) : Nat.to_uint n ≠ Decimal.Nil.
Proof.
  rewrite <- (DecimalNat.Unsigned.of_to n) at 1.
  rewrite DecimalNat.Unsigned.to_of. apply DecimalFacts.unorm_nonnil.
Qed.

Lemma format_nat_inj (n m : nat) : PyStr.format_nat n = PyStr.format_nat m → n = m.
Proof.
  unfold PyStr.format_nat. intros H.
  apply (f_equal NilZero.uint_of_string) in H.
  rewrite !NilZero.usu in H by apply to_uint_nonnil.
  injection H as H. by apply DecimalNat.Unsigned.to_uint_inj.
Qed.

Lemma stage_scope_blank (idx : nat) (scope : option string) :
  match scope with None => True | Some s => PyStr.only_whitespace s = true end →
  stage_scope idx scope = "GFN-BLK-" ++ PyStr.format_nat idx.
Proof.
  destruct scope as [s|]; simpl; [|done].
  intros H%strip_empty_iff. by rewrite H.
Qed.


(** X10: the scopes synthesized for blank labels at two different
    positions of the sequence are different. *)
Theorem stage_scope_defaults_distinct (i j : nat) (scope scope' : option string) :
  match scope with None => True | Some s => PyStr.only_whitespace s = true end →
  match scope' with None => True | Some s => PyStr.only_whitespace s = true end →
  i ≠ j → stage_scope i scope ≠ stage_scope j scope'.
Proof.
  intros H H' Hij.
  rewrite (stage_scope_blank i scope H), (stage_scope_blank j scope' H').
  intros Heq%append_inj_r. by apply Hij, format_nat_inj.
Qed.


End RewiringFacts.

(** ** Merging: the exceptions and the interface of the merged function *)

Section MergeFacts.
Context {E : Engine}.
Implicit Types (self issn : IsolatedSession E) (gfn g : GraphFunction E).
Implicit Types (f f_in f_out : unit_ (E := E)) (w : World).
Implicit Types (fs : list (unit_ (E := E))).

Lemma external_External (e : ext_exn) : external (External e).
Proof. done. Qed.

Lemma with_IsolatedSession_external {A} gr keras
    (body : IsolatedSession E → M World A) :
  (∀ issn, raises_only external (body issn)) →
  raises_only external (with_IsolatedSession gr keras body).
Proof.
  intros Hbody.
  unfold with_IsolatedSession, IsolatedSession_init, IsolatedSession_enter,
    IsolatedSession_exit.
  apply raises_only_bind.
  { destruct gr, keras; repeat raises_step. }
  intros mgr. apply raises_only_bind.
  { destruct (keras_prev_sess mgr); repeat raises_step. }
  intros issn. apply raises_only_finally; [apply Hbody|].
  destruct (keras_prev_sess mgr); repeat raises_step.
Qed.

Lemma import_graph_function_external self gfn input_map name kargs :
  (∀ w, check_input_map gfn input_map w = (Ok tt, w)) →
  raises_only external (import_graph_function self gfn input_map name kargs).
Proof.
  intros Hc w e w' H. unfold import_graph_function in H.
  rewrite (bind_ok _ _ w tt w (Hc w)) in H.
  destruct (scoped_names gfn name) as [[n ins] outs].
  assert (Hr : raises_only external
                 (import_and_resolve self gfn input_map n ins outs
                    (delete "return_elements" kargs))).
  { unfold import_and_resolve. repeat raises_step. }
  apply (Hr _ _ _ H).
Qed.

Lemma asGraphFunction_external self inputs outputs b :
  raises_only external (asGraphFunction self inputs outputs b).
Proof. unfold asGraphFunction. destruct b; repeat raises_step. Qed.

Lemma chain_external issn idx fs prev :
  raises_only external (chain issn idx fs prev).
Proof.
  revert idx prev. induction fs as [|[scope gfn] fs IH]; intros idx prev; simpl.
  - apply raises_only_ret.
  - apply raises_only_bind; [apply raises_only_effect|]. intros _.
    apply raises_only_bind.
    { apply import_graph_function_external. apply check_input_map_dict_zip. }
    intros [feeds fetches]. apply IH.
Qed.

Lemma first_input_info_external f fs :
  raises_only external (first_input_info (f :: fs)).
Proof.
  unfold first_input_info, item. simpl.
  apply with_IsolatedSession_external. intros issn.
  apply raises_only_bind; [apply raises_only_ret|]. intros [scope first_gfn].
  apply raises_only_bind; [by apply import_graph_function_external|].
  intros [feeds fetches]. repeat raises_step.
Qed.

Lemma build_chain_external f fs info :
  raises_only external (build_chain (f :: fs) info).
Proof.
  unfold build_chain, last_item.
  apply with_IsolatedSession_external. intros issn.
  apply raises_only_bind.
  { apply raises_only_mapM. intros [[dtype shape] name]. raises_step. }
  intros first_inputs.
  apply raises_only_bind; [apply chain_external|]. intros prev_outputs.
  apply raises_only_bind.
  { rewrite last_cons. destruct (last fs); apply raises_only_ret. }
  intros [scope last_gfn].
  apply raises_only_bind.
  { apply raises_only_mapM. intros [tnsr name]. raises_step. }
  intros last_outputs. apply asGraphFunction_external.
Qed.

Lemma offence_violates fs f_in f_out : first_offence fs f_in f_out → violates fs.
Proof.
  intros (pre & post & -> & _ & Hn)%first_offence_split. right.
  exists pre, f_in, f_out, post. split; [done|].
  unfold arity_match, single_input in *.
  destruct (decide (length (output_names f_in.2) = length (input_names f_out.2)));
    [|by left].
  destruct (decide (length (input_names f_out.2) = 1)); [|by right]. tauto.
Qed.

(** X12: an exception of [from_list] is either one of its validation
    errors, raised on a sequence that is empty or has an offending adjacent
    pair and in the world it was called in, or an exception that came out of
    a collaborator: [from_list] never raises an [IndexError], a [KeyError]
    or the assertion on the keys of an input map. *)
Theorem from_list_exceptions fs w e w' :
  from_list fs w = (Raise e, w') →
  (validation_error e ∧ w' = w ∧ violates fs) ∨ external e.
Proof.
  intros H. destruct fs as [|f [|f' fs]].
  - left. rewrite from_list_nil in H. injection H as <- <-.
    split_and!; [done..|by left].
  - destruct f as [scope gfn]. done.
  - destruct (linked_or_offence (f :: f' :: fs)) as [Hl|(a & b & Ho)].
    + right. rewrite from_list_linked in H by (simpl; lia || done).
      assert (Hr : raises_only external
                     (let* info := first_input_info (f :: f' :: fs) in
                      let* gfn := build_chain (f :: f' :: fs) info in
                      ret (GraphFunctionValue gfn))).
      { apply raises_only_bind; [apply first_input_info_external|]. intros info.
        apply raises_only_bind; [apply build_chain_external|]. intros gfn.
        apply raises_only_ret. }
      apply (Hr _ _ _ H).
    + left. rewrite (from_list_offence _ a b w Ho) in H. injection H as <- <-.
      split_and!; [apply offence_error_validation|done|by eapply offence_violates].
Qed.

Lemma linked_single_outputs fs :
  linked fs → Forall (λ f, length (output_names f.2) = 1) (removelast fs).
Proof.
  induction fs as [|f fs IH]; [constructor|].
  destruct fs as [|f' fs]; [constructor|].
  intros [[Ha Hs] Hl]. change (removelast (f :: f' :: fs)) with (f :: removelast (f' :: fs)).
  constructor; [|by apply IH].
  unfold arity_match, single_input in *. congruence.
Qed.

(** X13: when [from_list] on two or more units gets past its validation,
    that is, returns or raises an exception that came out of a
    collaborator, the sequence is a chain of single links: every unit but
    the last declares one output and every unit but the first declares one
    input. *)
Theorem from_list_accepts_single_links fs w :
  (2 ≤ length fs)%nat →
  match (from_list fs w).1 with
  | Ok _ => True
  | Raise e => external e
  end →
  Forall (λ f, length (output_names f.2) = 1) (removelast fs) ∧
  Forall (λ f, length (input_names f.2) = 1) (drop 1 fs).
Proof.
  intros Hlen H. destruct (linked_or_offence fs) as [Hl|(a & b & Ho)].
  - split; [by apply linked_single_outputs|by apply linked_tail].
  - rewrite (from_list_offence _ a b w Ho) in H. simpl in H.
    unfold offence_error in H. by destruct (Nat.eqb _ _).
Qed.

Lemma first_input_info_ok fs w info w' :
  first_input_info fs w = (Ok info, w') →
  ∃ scope first_gfn feeds,
    fs !! 0 = Some (scope, first_gfn) ∧
    length feeds = length (input_names first_gfn) ∧
    length info = length feeds ∧
    (∀ name_of : Tensor → string, operation_names name_of →
       map name_of feeds = input_names first_gfn ∧
       map (λ i, i.2) info = map name_of feeds).
Proof.
  intros H. unfold first_input_info, with_IsolatedSession in H.
  apply bind_ok_inv in H as (mgr & w1 & _ & H).
  apply bind_ok_inv in H as (issn & w2 & _ & H).
  apply finally_ok_inv in H as (w3 & H & _).
  apply bind_ok_inv in H as ([scope first_gfn] & w4 & Hitem & H).
  apply bind_ok_inv in H as ([feeds fetches] & w5 & Himp & H).
  unfold item in Hitem. destruct (fs !! 0) as [f0|] eqn:Hf0; [|done].
  injection Hitem as -> _.
  exists scope, first_gfn, feeds. split_and!; [done| | |].
  - by apply import_graph_function_lengths in Himp as [? _].
  - by apply mapM_length in H.
  - intros name_of Hn. split.
    + apply (import_graph_function_resolved name_of) in Himp as [Hfeeds _].
      * simpl in Hfeeds. by rewrite List.map_id in Hfeeds.
      * apply (names_get_tensor name_of Hn).
    + apply (mapM_ok_map _ name_of (λ i, i.2)) in H; [done|].
      intros tnsr [[dtype shape] name] wa wb Hb.
      apply bind_ok_inv in Hb as (name' & wc & Hc%call_ok_inv & Hb).
      injection Hb as _ _ <- _. simpl.
      by apply (names_op_name name_of Hn) in Hc.
Qed.

Lemma build_chain_ok fs info w g w' :
  build_chain fs info w = (Ok g, w') →
  ∃ scope last_gfn,
    last fs = Some (scope, last_gfn) ∧
    length (input_names g) = length info ∧
    length (output_names g) = length (output_names last_gfn) ∧
    (∀ name_of : Tensor → string, operation_names name_of →
       input_names g = map (λ i, i.2) info).
Proof.
  intros H. unfold build_chain, with_IsolatedSession in H.
  apply bind_ok_inv in H as (mgr & w1 & _ & H).
  apply bind_ok_inv in H as (issn & w2 & _ & H).
  apply finally_ok_inv in H as (w3 & H & _).
  apply bind_ok_inv in H as (first_inputs & w4 & Hph & H).
  apply bind_ok_inv in H as (prev_outputs & w5 & Hchain & H).
  apply bind_ok_inv in H as ([scope last_gfn] & w6 & Hlast & H).
  apply bind_ok_inv in H as (last_outputs & w7 & Hident & H).
  unfold last_item in Hlast.
  destruct (last fs) as [[scope' last_gfn']|] eqn:Hl; [|done].
  injection Hlast as -> -> _.
  apply chain_lengths in Hchain. rewrite Hl in Hchain.
  pose proof (mapM_length _ _ _ _ _ Hph) as Hlen_ph.
  pose proof (mapM_length _ _ _ _ _ Hident) as Hlen_id.
  rewrite length_zip in Hlen_id.
  unfold asGraphFunction in H.
  apply bind_ok_inv in H as (gdef & w8 & _ & H).
  apply bind_ok_inv in H as (ins & w9 & Hins & H).
  apply bind_ok_inv in H as (outs & w10 & Houts & H).
  injection H as <- _. simpl.
  exists scope, last_gfn. split_and!; [done| | |].
  - apply mapM_length in Hins. lia.
  - apply mapM_length in Houts. lia.
  - intros name_of Hn.
    apply (mapM_ok_map _ name_of id) in Hins.
    + rewrite List.map_id in Hins. rewrite Hins.
      apply (mapM_ok_map _ (λ i, i.2) name_of) in Hph; [done|].
      intros [[dtype shape] name] t wa wb Hc%call_ok_inv.
      by apply (names_placeholder name_of Hn) in Hc.
    + intros t s wa wb Hc%call_ok_inv.
      by apply (names_validated_input name_of Hn) in Hc.
Qed.

Lemma from_list_ok_inv fs w g w' :
  from_list fs w = (Ok (GraphFunctionValue g), w') →
  ∃ info w1 w2, first_input_info fs w1 = (Ok info, w2) ∧
                build_chain fs info w2 = (Ok g, w').
Proof.
  intros H. destruct fs as [|f [|f' fs]].
  - done.
  - destruct f as [scope gfn]. by injection H.
  - unfold from_list in H.
    apply bind_ok_inv in H as ([] & w1 & _ & H).
    change (Nat.eqb 1 (length (f :: f' :: fs))) with false in H. cbv iota in H.
    apply bind_ok_inv in H as ([] & w2 & _ & H).
    apply bind_ok_inv in H as (info & w3 & Hinfo & H).
    apply bind_ok_inv in H as (gfn & w4 & Hb & H).
    injection H as -> ->. by exists info, w2, w3.
Qed.

(** X14: a merged graph function has as many input names as the first
    unit of the sequence declares and as many output names as the last unit
    declares. *)
Theorem from_list_interface_sizes fs w g w' :
  from_list fs w = (Ok (GraphFunctionValue g), w') →
  ∃ scope_first first_gfn scope_last last_gfn,
    fs !! 0 = Some (scope_first, first_gfn) ∧
    last fs = Some (scope_last, last_gfn) ∧
    length (input_names g) = length (input_names first_gfn) ∧
    length (output_names g) = length (output_names last_gfn).
Proof.
  intros (info & w1 & w2 & Hinfo & Hb)%from_list_ok_inv.
  apply first_input_info_ok in Hinfo
    as (scope_first & first_gfn & feeds & Hf & Hfeeds & Hinfo & _).
  apply build_chain_ok in Hb
    as (scope_last & last_gfn & Hl & Hins & Houts & _).
  exists scope_first, first_gfn, scope_last, last_gfn.
  split_and!; [done|done|lia|done].
Qed.

(** X15: when placeholders and looked-up tensors carry the names asked
    for and [op_name] and [validated_input] return the name of the
    operation they are given, the input names of a merged graph function are
    the input names the first unit declares. *)
Theorem from_list_input_names (name_of : Tensor → string) fs w g w' :
  operation_names name_of →
  from_list fs w = (Ok (GraphFunctionValue g), w') →
  ∃ scope first_gfn, fs !! 0 = Some (scope, first_gfn) ∧
                     input_names g = input_names first_gfn.
Proof.
  intros Hn (info & w1 & w2 & Hinfo & Hb)%from_list_ok_inv.
  apply first_input_info_ok in Hinfo
    as (scope & first_gfn & feeds & Hf & _ & _ & Hnames).
  apply build_chain_ok in Hb as (_ & _ & _ & _ & _ & Hins).
  destruct (Hnames name_of Hn) as [Hfeeds Hinfo].
  exists scope, first_gfn. split; [done|].
  by rewrite (Hins name_of Hn), Hinfo.
Qed.

End MergeFacts.

(** ** Persistence and Keras models: paths *)

Section PathFacts.
Context {E : Engine}.
Implicit Types (g : GraphFunction E) (w : World).

(** X16: [dump] writes to the same file for a path that does not end with
    "jl" and for that path followed by ".jl": the two calls are the same
    call. *)
Theorem dump_suffix_collision g (fpath : string) w :
  PyStr.endswith fpath "jl" = false →
  dump g fpath w = dump g (fpath ++ ".jl") w.
Proof.
  intros H. unfold dump, dump_path. by rewrite H, endswith_dot_jl.
Qed.


(** X19: a block [with IsolatedSession(graph)] without the [keras] flag
    leaves alone whatever the creation, the entry and the exit of a
    TensorFlow session and the body leave alone: neither [K.get_session]
    nor [K.set_session] is called. *)
Theorem with_IsolatedSession_without_keras {X A} (obs : World → X)
    (gr : option Graph) (body : IsolatedSession E → M World A) w :
  frame obs tf_Graph → (∀ gr', frame obs (tf_Session gr')) →
  (∀ s, frame obs (sess_as_default s)) → (∀ s, frame obs (sess_enter s)) →
  (∀ s, frame obs (sess_exit s)) →
  (∀ issn w0, obs (body issn w0).2 = obs w0) →
  obs (with_IsolatedSession gr false body w).2 = obs w.
Proof.
  intros HG HS Ha He Hx Hbody.
  assert (Hinit : keeps obs (IsolatedSession_init gr false)).
  { unfold IsolatedSession_init.
    apply keeps_bind; [destruct gr; [apply keeps_ret|by apply keeps_call]|].
    intros gr'. apply keeps_bind; [by apply keeps_call|]. intros s.
    apply keeps_bind; [apply keeps_ret|]. intros prev. apply keeps_ret. }
  unfold with_IsolatedSession. specialize (Hinit w). unfold bind at 1.
  destruct (IsolatedSession_init gr false w) as [[mgr|e] w1] eqn:Hi; [|done].
  simpl in Hinit. pose proof (init_prev_sess_none gr w mgr w1 Hi) as Hmgr.
  assert (Henter : keeps obs (IsolatedSession_enter mgr)).
  { unfold IsolatedSession_enter. rewrite Hmgr.
    apply keeps_bind; [by apply keeps_call|]. intros _.
    apply keeps_bind; [by apply keeps_call|]. intros _.
    apply keeps_bind; [apply keeps_ret|]. intros _. apply keeps_ret. }
  assert (Hexit : keeps obs (IsolatedSession_exit mgr)).
  { unfold IsolatedSession_exit. rewrite Hmgr.
    apply keeps_bind; [apply keeps_ret|]. intros _. by apply keeps_call. }
  rewrite <- Hinit.
  apply (keeps_bind obs (IsolatedSession_enter mgr)
           (λ issn, finally (body issn) (IsolatedSession_exit mgr)) Henter).
  intros issn. apply keeps_finally; [intros w0; apply Hbody|apply Hexit].
Qed.

End PathFacts.

(** X20: the handles [import_graph_function] returns are one for each
    declared input name and one for each declared output name, whatever the
    [name] and the input map. *)
Theorem import_graph_function_handle_counts {E : Engine}
    (self : IsolatedSession E) (gfn : GraphFunction E)
    (input_map : option (gmap string Tensor)) (name : option string)
    (kargs : gmap string Kwarg) (w : World) feeds fetches w' :
  import_graph_function self gfn input_map name kargs w = (Ok (feeds, fetches), w') →
  length feeds = length (input_names gfn) ∧
  length fetches = length (output_names gfn).
Proof. apply import_graph_function_lengths. Qed.

(** ** The engines meet the contracts *)

Module RefStackFacts.
Import RefEngine.

Lemma depth_record (base : nat) (ev : string) (w : world) :
  RefStack.depth base (record ev w) = RefStack.step (RefStack.depth base w) ev.
Proof. unfold RefStack.depth. simpl. by rewrite fold_left_app. Qed.

Lemma depth_new_handle (base : nat) (ev : string) (w : world) :
  RefStack.depth base (new_handle ev w).2 = RefStack.step (RefStack.depth base w) ev.
Proof. unfold RefStack.depth. simpl. by rewrite fold_left_app. Qed.

Lemma session_stack_ref (base : nat) :
  session_stack (E := engine) (RefStack.depth base).
Proof.
  split; try (intros; intros w); intros; simpl;
    try reflexivity; try apply depth_record; try apply depth_new_handle.
  - unfold ref_load_model. destruct (read_file path (h5_files w)) as [m|].
    + destruct (km_custom_layer m); [reflexivity|apply depth_record].
    + reflexivity.
  - unfold ref_model_save.
    destruct (has_dir (PyPath.parent path) (dirs w)); reflexivity.
Qed.

Lemma set_session_total (s : nat) : total (E := engine) (K_set_session s).
Proof. intros w. by exists tt. Qed.

Lemma operation_names_ref : operation_names (E := engine) (id : string → string).
Proof.
  split; simpl; unfold done; intros;
    match goal with H : _ = (inr _, _) |- _ => injection H as <- _ end;
    reflexivity.
Qed.

Lemma get_tensor_named (gr : nat) (n : string) (w0 : world) (t : string) (w1 : world) :
  get_tensor gr n w0 = (inr t, w1) → id t = n.
Proof. by intros [= <- _]. Qed.

End RefStackFacts.

Module KerasRegistryFacts.
Import KerasRegistry.

Lemma registry : keras_registry (E := engine) current.
Proof.
  split.
  - intros w. split; [reflexivity|]. by intros s [= <-].
  - intros s w. by split.
  - by intros w.
  - by intros g w.
  - by intros s w.
  - by intros s w.
  - by intros s w.
Qed.

End KerasRegistryFacts.

(** ** The further statements at concrete inputs *)

Section MoreInstances.
Import RefEngine RefStackFacts Samples.

(** The merge of three units on the reference engine: the inputs of the
    first, the outputs of the last, and a stack of sessions as deep as
    before. *)
Example chain_abc_merged :
  (from_list chain_abc nested_world).1 =
    Ok (GraphFunctionValue (gfn ["x1"; "x2"] ["y1"; "y2"])) ∧
  RefStack.depth 0 nested_world = 2 ∧
  RefStack.depth 0 (from_list chain_abc nested_world).2 = 2.
Proof. by vm_compute. Qed.

(** [with_IsolatedSession_restores_keras_session] for a body that hands
    Keras another session and raises. *)
Lemma with_IsolatedSession_restores_keras_session_witness :
  KerasRegistry.current
    (with_IsolatedSession (E := KerasRegistry.engine) None true
       KerasRegistry.rogue_body (empty_world, 7)).2 =
  KerasRegistry.current (empty_world, 7).
Proof.
  apply (with_IsolatedSession_restores_keras_session
           (E := KerasRegistry.engine) KerasRegistry.current None
           KerasRegistry.rogue_body (empty_world, 7)).
  apply KerasRegistryFacts.registry.
Defined.

(** The body of that block did run and raise. *)
Example rogue_body_ran :
  (with_IsolatedSession (E := KerasRegistry.engine) None true
     KerasRegistry.rogue_body (empty_world, 7)).1 =
    Raise (External (ExtExn "RuntimeError" "body failed")) ∧
  (KerasRegistry.rogue_body (mkIsolatedSession (E := KerasRegistry.engine) 0 0 (Some 7))
     (empty_world, 0)).2.2 = 99.
Proof. by vm_compute. Qed.

Lemma failing_body_keeps (base : nat) (issn : IsolatedSession engine) (w0 : world) :
  RefStack.depth base (failing_body issn w0).2 = RefStack.depth base w0.
Proof.
  apply (keeps_bind (E := engine) (RefStack.depth base)).
  - apply import_graph_function_keeps, session_stack_ref.
  - intros _. apply keeps_raise.
Qed.

(** [with_IsolatedSession_keeps_session_stack] for a body that raises,
    inside two entered sessions. *)
Lemma with_IsolatedSession_keeps_session_stack_witness :
  RefStack.depth 0 (with_IsolatedSession (E := engine) None false failing_body
                      nested_world).2 =
  RefStack.depth 0 nested_world.
Proof.
  apply (with_IsolatedSession_keeps_session_stack (E := engine) (RefStack.depth 0)
           None false failing_body nested_world (session_stack_ref 0)).
  - discriminate.
  - apply failing_body_keeps.
Defined.

(** [from_list_keeps_session_stack] on a sequence with an arity mismatch
    and on one that merges. *)
Lemma from_list_keeps_session_stack_witness :
  RefStack.depth 0 (from_list mismatch nested_world).2 = RefStack.depth 0 nested_world ∧
  RefStack.depth 0 (from_list chain_abc nested_world).2 = RefStack.depth 0 nested_world.
Proof.
  split.
  - apply (from_list_keeps_session_stack (E := engine) (RefStack.depth 0)
             mismatch nested_world (session_stack_ref 0)).
  - apply (from_list_keeps_session_stack (E := engine) (RefStack.depth 0)
             chain_abc nested_world (session_stack_ref 0)).
Defined.

(** [from_keras_keeps_session_stack] on the model that fails to load. *)
Lemma from_keras_keeps_session_stack_witness :
  RefStack.depth 0 (from_keras (InMemoryModel (E := engine) custom_model)
                      nested_world).2 =
  RefStack.depth 0 nested_world.
Proof.
  apply (from_keras_keeps_session_stack (E := engine) (RefStack.depth 0)
           (InMemoryModel (E := engine) custom_model) nested_world
           (session_stack_ref 0) set_session_total).
Defined.

(** [asGraphFunction_validated_names] on two inputs and one output. *)
Lemma asGraphFunction_validated_names_witness :
  Forall2 (λ elem name, ∃ w1 w2,
             validated_input (Engine := engine) (graph issn0) elem w1 = (inr name, w2))
          ["x1"; "x2"] (input_names (gfn ["x1"; "x2"] ["y"])) ∧
  Forall2 (λ elem name, ∃ w1 w2,
             validated_output (Engine := engine) (graph issn0) elem w1 = (inr name, w2))
          ["y"] (output_names (gfn ["x1"; "x2"] ["y"])) ∧
  ∃ w1, strip_and_freeze_until (Engine := engine) ["y"] (graph issn0) (sess issn0)
          empty_world = (inr (graph_def (gfn ["x1"; "x2"] ["y"])), w1).
Proof.
  apply (asGraphFunction_validated_names (E := engine) issn0 ["x1"; "x2"] ["y"] true
           empty_world (gfn ["x1"; "x2"] ["y"])
           (asGraphFunction issn0 ["x1"; "x2"] ["y"] true empty_world).2).
  by vm_compute.
Defined.

(** [import_graph_function_handle_names] for a padded name. *)
Lemma import_graph_function_handle_names_witness :
  map id ["a/x"] = map (λ op_name, PyStr.strip " a " ++ "/" ++ op_name) ["x"] ∧
  map id ["a/y"] = map (λ op_name, PyStr.strip " a " ++ "/" ++ op_name) ["y"].
Proof.
  apply (import_graph_function_handle_names (E := engine) (id : string → string)
           issn0 (gfn ["x"] ["y"]) None (Some " a ") ∅ empty_world
           ["a/x"] ["a/y"]
           (import_graph_function issn0 (gfn ["x"] ["y"]) None (Some " a ") ∅
              empty_world).2
           get_tensor_named).
  by vm_compute.
Defined.

(** [import_graph_function_handle_counts] for the same import. *)
Lemma import_graph_function_handle_counts_witness :
  length ["a/x"] = length (input_names (gfn ["x"] ["y"])) ∧
  length ["a/y"] = length (output_names (gfn ["x"] ["y"])).
Proof.
  apply (import_graph_function_handle_counts (E := engine)
           issn0 (gfn ["x"] ["y"]) None (Some " a ") ∅ empty_world
           ["a/x"] ["a/y"]
           (import_graph_function issn0 (gfn ["x"] ["y"]) None (Some " a ") ∅
              empty_world).2).
  by vm_compute.
Defined.

(** [dict_zip_positional] for two names and three previous outputs. *)
Lemma dict_zip_positional_witness :
  (∀ i k v, ["a"; "b"] !! i = Some k → [1; 2; 3] !! i = Some v →
            dict_zip ["a"; "b"] [1; 2; 3] !! k = Some v) ∧
  (∀ k, k ∈ dom (dict_zip ["a"; "b"] [1; 2; 3]) → k ∈ ["a"; "b"]).
Proof.
  apply (dict_zip_positional ["a"; "b"] [1; 2; 3]).
  apply (bool_decide_unpack _). by vm_compute.
Defined.

(** With a repeated name the later pair wins. *)
Example dict_zip_repeated :
  dict_zip ["a"; "a"] [1; 2] !! "a" = Some 2.
Proof. by vm_compute. Qed.

(** [stage_scope_defaults_distinct] for a missing and a blank label. *)
Lemma stage_scope_defaults_distinct_witness :
  stage_scope 0 None ≠ stage_scope 10 (Some "  ").
Proof.
  apply (stage_scope_defaults_distinct 0 10 None (Some "  "));
    [exact I|reflexivity|discriminate].
Defined.

(** [from_list_exceptions] on the sequence with an arity mismatch. *)
Lemma from_list_exceptions_witness :
  (validation_error
     (AssertionError "graph function link a -> None require compatible layers") ∧
   empty_world = empty_world ∧ violates mismatch) ∨
  external (AssertionError "graph function link a -> None require compatible layers").
Proof.
  apply (from_list_exceptions (E := engine) mismatch empty_world
           (AssertionError "graph function link a -> None require compatible layers")
           empty_world).
  by vm_compute.
Defined.

(** [from_list_accepts_single_links] on the three units that merge. *)
Lemma from_list_accepts_single_links_witness :
  Forall (λ f, length (output_names f.2) = 1) (removelast chain_abc) ∧
  Forall (λ f, length (input_names f.2) = 1) (drop 1 chain_abc).
Proof.
  apply (from_list_accepts_single_links (E := engine) chain_abc empty_world).
  - simpl. lia.
  - by vm_compute.
Defined.

(** [from_list_interface_sizes] on the three units that merge. *)
Lemma from_list_interface_sizes_witness :
  ∃ scope_first first_gfn scope_last last_gfn,
    chain_abc !! 0 = Some (scope_first, first_gfn) ∧
    last chain_abc = Some (scope_last, last_gfn) ∧
    length (input_names (gfn ["x1"; "x2"] ["y1"; "y2"])) =
      length (input_names first_gfn) ∧
    length (output_names (gfn ["x1"; "x2"] ["y1"; "y2"])) =
      length (output_names last_gfn).
Proof.
  apply (from_list_interface_sizes (E := engine) chain_abc empty_world
           (gfn ["x1"; "x2"] ["y1"; "y2"]) (from_list chain_abc empty_world).2).
  by vm_compute.
Defined.

(** [from_list_input_names] on the three units that merge. *)
Lemma from_list_input_names_witness :
  ∃ scope first_gfn, chain_abc !! 0 = Some (scope, first_gfn) ∧
                     input_names (gfn ["x1"; "x2"] ["y1"; "y2"]) =
                     input_names first_gfn.
Proof.
  apply (from_list_input_names (E := engine) (id : string → string)
           chain_abc empty_world (gfn ["x1"; "x2"] ["y1"; "y2"])
           (from_list chain_abc empty_world).2 operation_names_ref).
  by vm_compute.
Defined.

(** [dump_suffix_collision] for the path "model". *)
Lemma dump_suffix_collision_witness :
  dump (gfn ["x"] ["y"]) "model" empty_world =
  dump (gfn ["x"] ["y"]) ("model" ++ ".jl") empty_world.
Proof.
  apply (dump_suffix_collision (E := engine) (gfn ["x"] ["y"]) "model" empty_world).
  reflexivity.
Defined.

(** [from_keras_in_memory_ok] on the model that loads. *)
Lemma from_keras_in_memory_ok_witness :
  from_keras (InMemoryModel (E := engine) plain_model) empty_world =
  (Ok (gfn ["input_1"] ["output_1"]),
   rmtree_ignore_errors (Engine := engine) "/tmp/kera-0"
     (load_and_capture (E := engine) "/tmp/kera-0/model.h5"
        (model_save (Engine := engine) plain_model "/tmp/kera-0/model.h5"
           (mkdtemp (Engine := engine) "kera-" empty_world).2).2).2).
Proof.
  apply (from_keras_in_memory_ok (E := engine) plain_model "/tmp/kera-0" empty_world
           (mkdtemp (Engine := engine) "kera-" empty_world).2
           (model_save (Engine := engine) plain_model "/tmp/kera-0/model.h5"
              (mkdtemp (Engine := engine) "kera-" empty_world).2).2).
  - discriminate.
  - reflexivity.
  - reflexivity.
  - by vm_compute.
Defined.

(** [with_IsolatedSession_without_keras] for the temporary directories of
    the reference engine and a body that raises. *)
Lemma with_IsolatedSession_without_keras_witness :
  dirs (with_IsolatedSession (E := engine) None false failing_body nested_world).2 =
  dirs nested_world.
Proof.
  apply (with_IsolatedSession_without_keras (E := engine) dirs None failing_body
           nested_world); try (intros; intros w0; reflexivity).
  intros issn w0. reflexivity.
Defined.

End MoreInstances.


(** ** The statements on the engine with TensorFlow's operation names *)

Module TfNamesFacts.
Import TfNames.


End TfNamesFacts.

Section TfInstances.
Import TfNames TfNamesFacts.



(** C10 fails on the code for [None]: the import under the empty name
    returns the handles of the declared names, the import under [None] puts
    the operations behind "import/" and the lookup of the declared names
    raises. *)
Lemma absent_prefix_reading_fails :
  (import_graph_function issn0 (unit_of ["x"] ["y"]) None (Some "") ∅ initial).1 =
    Ok (["x"], ["y"]) ∧
  (import_graph_function issn0 (unit_of ["x"] ["y"]) None None ∅ initial).1 =
    Raise (External (ExtExn "KeyError"
                       "The name refers to an operation not in the graph")) ∧
  graphs (import_graph_function issn0 (unit_of ["x"] ["y"]) None None ∅ initial).2.2 =
    [["import/x"; "import/y"]] ∧
  ¬ absent_prefix_reading (E := engine) issn0 (unit_of ["x"] ["y"]) None ∅ initial.
Proof.
  split_and!; [by vm_compute..|].
  intros H. specialize (H None I).
  apply (f_equal fst) in H. vm_compute in H. discriminate H.
Qed.

(** On this engine a blank and a padded name give the handles of the
    declared names, respectively of the names behind the label. *)
Example import_blank_and_padded_names :
  (import_graph_function issn0 (unit_of ["x"] ["y"]) None
     (Some (String "160" " ")) ∅ initial).1 = Ok (["x"], ["y"]) ∧
  (import_graph_function issn0 (unit_of ["x"] ["y"]) None
     (Some (String "160" "b ")) ∅ initial).1 = Ok (["b/x"], ["b/y"]).
Proof. by vm_compute. Qed.

End TfInstances.
